(** * kalibrate-rtl.py: channel selection, PPM aggregation and channel lists

    A shallow embedding of [CalTool] and [BTSChannels].

    Conventions of the model:
    - a Python [float] is an exact rational ([Q]); rounding, infinities
      and NaN are outside the model;
    - a Python [int] is a [Z];
    - a Python [str] is a list of characters ([list ascii], code points
      below 256);
    - a raised exception is the [Raise] branch of [result];
    - a channel tuple [(band, ch, freq, freq_err, p)] is a [chrec]. *)

From Stdlib Require Import Ascii String.
From Stdlib Require Import NArith ZArith QArith Qabs List Bool Lia Lqa.
From Stdlib Require Import Permutation Sorted.
Import ListNotations.

Local Open Scope char_scope.
Local Open Scope Z_scope.

(** ** Exceptions and the error monad *)

Inductive exn : Type :=
| ValueError
| IndexError
| ZeroDivisionError
| UnicodeDecodeError
| CalledProcessError
| OutOfFuel   (* not a Python exception: a bounded loop used up its bound *)
| NoObject.   (* not a Python exception: a reference to no object *)

Inductive result (A : Type) : Type :=
| Ok (a : A)
| Raise (e : exn).

Arguments Ok {A} a.
Arguments Raise {A} e.

Definition bind {A B : Type} (m : result A) (k : A -> result B) : result B :=
  match m with
  | Ok a => k a
  | Raise e => Raise e
  end.

Declare Scope py_scope.
Delimit Scope py_scope with py.
Notation "x <- m ;; k" := (bind m (fun x => k))
  (at level 61, m at next level, right associativity) : py_scope.
Notation "' p <- m ;; k" := (bind m (fun x => match x with p => k end))
  (at level 61, p pattern, m at next level, right associativity) : py_scope.
Local Open Scope py_scope.

(** ** Python built-ins used by the program *)

Definition str : Type := list ascii.

(** [a < b] on floats *)
Definition Qltb (a b : Q) : bool :=
  (Qnum a * QDen b <? Qnum b * QDen a)%Z.

(** [x / y] on floats: division by zero raises *)
Definition py_truediv (x y : Q) : result Q :=
  if Qeq_bool y 0 then Raise ZeroDivisionError else Ok (x / y)%Q.

(** [sum(l)]: left to right, starting from [0] *)
Definition py_sum (l : list Q) : Q := fold_left Qplus l 0%Q.

(** The position a (possibly negative) index denotes in a list of length [n] *)
Definition py_norm_index (n : nat) (i : Z) : result nat :=
  let j := if i <? 0 then i + Z.of_nat n else i in
  if (j <? 0) || (Z.of_nat n <=? j) then Raise IndexError
  else Ok (Z.to_nat j).

(** [l[i]] *)
Definition py_getitem {A : Type} (l : list A) (i : Z) : result A :=
  j <- py_norm_index (length l) i ;;
  match nth_error l j with
  | Some x => Ok x
  | None => Raise IndexError
  end.

(** The list without its element at position [j] *)
Fixpoint remove_at {A : Type} (j : nat) (l : list A) : list A :=
  match l, j with
  | [], _ => []
  | _ :: t, O => t
  | x :: t, S j' => x :: remove_at j' t
  end.

(** [l.pop(i)]: the list that is left (the popped element is not used) *)
Definition py_pop {A : Type} (l : list A) (i : Z) : result (list A) :=
  j <- py_norm_index (length l) i ;;
  Ok (remove_at j l).

(** [l[:n]] *)
Definition py_slice_to {A : Type} (l : list A) (n : Z) : list A :=
  if n <? 0 then firstn (Z.to_nat (Z.of_nat (length l) + n)) l
  else firstn (Z.to_nat n) l.

(** [l.sort(key=key)]: the sort is stable and compares keys with [<] only,
    so its result is the one of a stable insertion sort. *)
Fixpoint sort_insert {A : Type} (key : A -> Q) (x : A) (l : list A) : list A :=
  match l with
  | [] => [x]
  | y :: t => if Qltb (key y) (key x) then y :: sort_insert key x t
              else x :: y :: t
  end.

Fixpoint py_sort {A : Type} (key : A -> Q) (l : list A) : list A :=
  match l with
  | [] => []
  | x :: t => sort_insert key x (py_sort key t)
  end.

(** [max(l)]: the first largest element; raises on an empty list *)
Definition py_max (l : list Q) : result Q :=
  match l with
  | [] => Raise ValueError
  | x :: t => Ok (fold_left (fun m y => if Qltb m y then y else m) t x)
  end.

(** *** Strings *)

Definition lit (x : string) : str := list_ascii_of_string x.
Arguments lit x%_string.

Fixpoint str_eqb (a b : str) : bool :=
  match a, b with
  | [], [] => true
  | x :: a', y :: b' => Ascii.eqb x y && str_eqb a' b'
  | _, _ => false
  end.

(** [c.isspace()] on the code points below 256: tab to carriage return,
    the four separators 28 to 31, the space, NEL and the no-break space *)
Definition isspace (c : ascii) : bool :=
  let n := N_of_ascii c in
  ((9 <=? n) && (n <=? 13) || (28 <=? n) && (n <=? 32)
   || (n =? 133) || (n =? 160))%N.

Fixpoint lstrip_with (p : ascii -> bool) (l : str) : str :=
  match l with
  | [] => []
  | c :: t => if p c then lstrip_with p t else l
  end.

Fixpoint rstrip_with (p : ascii -> bool) (l : str) : str :=
  match l with
  | [] => []
  | c :: t =>
      match rstrip_with p t with
      | [] => if p c then [] else [c]
      | t' => c :: t'
      end
  end.

(** [x.strip()] *)
Definition strip (x : str) : str := rstrip_with isspace (lstrip_with isspace x).

Definition mem (chars : str) (c : ascii) : bool := existsb (Ascii.eqb c) chars.

(** [x.rstrip(chars)]: drops the trailing characters that occur in [chars] *)
Definition rstrip (chars : str) (x : str) : str := rstrip_with (mem chars) x.

(** [x.split(sep)] for a separator of one character *)
Fixpoint split (sep : ascii) (x : str) : list str :=
  match x with
  | [] => [[]]
  | c :: t =>
      if Ascii.eqb c sep then [] :: split sep t
      else match split sep t with
           | h :: r => (c :: h) :: r
           | [] => [[c]]
           end
  end.

(** [x.find(c)] for a single character: its first position, or [-1] *)
Fixpoint find (c : ascii) (x : str) : Z :=
  match x with
  | [] => -1
  | d :: t => if Ascii.eqb d c then 0
              else let r := find c t in if r <? 0 then -1 else r + 1
  end.

(** [c not in x] for a single character *)
Definition lacks (c : ascii) (x : str) : bool :=
  forallb (fun d => negb (Ascii.eqb d c)) x.

(** *** Numbers and their decimal spellings *)

Definition isdigit (c : ascii) : bool :=
  let n := N_of_ascii c in ((48 <=? n) && (n <=? 57))%N.

Definition digit_char (d : N) : ascii := ascii_of_N (48 + d).

Fixpoint digits_val_acc (acc : N) (l : str) : option N :=
  match l with
  | [] => Some acc
  | c :: t => if isdigit c
              then digits_val_acc (10 * acc + (N_of_ascii c - 48)) t
              else None
  end.

(** The number a non-empty run of decimal digits denotes *)
Definition digits_val (l : str) : option N :=
  match l with
  | [] => None
  | _ :: _ => digits_val_acc 0 l
  end.

Fixpoint to_digits (fuel : nat) (n : N) : str :=
  match fuel with
  | O => [digit_char (n mod 10)]
  | S f => if (n <? 10)%N then [digit_char n]
           else to_digits f (n / 10) ++ [digit_char (n mod 10)]
  end.

(** The decimal digits of [n], without leading zeros *)
Definition N_digits (n : N) : str := to_digits (N.size_nat n) n.

Definition split_sign (x : str) : bool * str :=
  match x with
  | "-" :: t => (true, t)
  | "+" :: t => (false, t)
  | _ => (false, x)
  end.

(** [int(x)] on a string: blanks around, an optional sign, decimal digits.
    (Digit-group underscores are not modelled.) *)
Definition py_int (x : str) : result Z :=
  let (neg, ds) := split_sign (strip x) in
  match digits_val ds with
  | Some n => Ok (if neg then - Z.of_N n else Z.of_N n)
  | None => Raise ValueError
  end.

Fixpoint pow10 (k : nat) : positive :=
  match k with
  | O => 1%positive
  | S k' => (10 * pow10 k')%positive
  end.

(** [float(x)] on a string: blanks around, an optional sign, and a decimal
    literal [ddd], [ddd.ddd], [ddd.] or [.ddd].  These are the spellings
    [%f] writes and the tool prints; exponents, [inf] and [nan] are outside
    the model (a [float] is a rational here) and raise like any other
    string that is not a decimal literal. *)
Definition py_float (x : str) : result Q :=
  let (neg, body) := split_sign (strip x) in
  match split "." body with
  | [ip] =>
      match digits_val ip with
      | Some n => Ok (if neg then - (Z.of_N n # 1) else (Z.of_N n # 1))%Q
      | None => Raise ValueError
      end
  | [ip; fp] =>
      match digits_val (ip ++ fp) with
      | Some n => Ok (if neg then - (Z.of_N n # pow10 (length fp))
                      else (Z.of_N n # pow10 (length fp)))%Q
      | None => Raise ValueError
      end
  | _ => Raise ValueError
  end.

(** ['%d' % z] *)
Definition format_d (z : Z) : str :=
  (if z <? 0 then ["-"] else []) ++ N_digits (Z.abs_N z).

(** The non-negative rational [q] rounded to the nearest integer, ties to even *)
Definition round_half_even (q : Q) : N :=
  let n := Qnum q in
  let d := Zpos (Qden q) in
  let fl := n / d in
  let r := n mod d in
  Z.to_N (match 2 * r ?= d with
          | Lt => fl
          | Gt => fl + 1
          | Eq => if Z.even fl then fl else fl + 1
          end).

(** ['%.<prec>f' % q] for [prec >= 1]: the sign, then the digits of [q]
    rounded to [prec] decimals with the point before the last [prec] of them *)
Definition format_f (prec : nat) (q : Q) : str :=
  let n := round_half_even (Qabs q * (Zpos (pow10 prec) # 1))%Q in
  let ds := N_digits n in
  let ds := repeat "0" (S prec - length ds) ++ ds in
  let k := (length ds - prec)%nat in
  (if Qltb q 0 then ["-"] else [])
    ++ firstn k ds ++ "." :: skipn k ds.

(** ** Channel records *)

Record chrec : Type := mkCh {
  band : str;       (* c[0] *)
  ch : Z;           (* c[1] *)
  freq : Q;         (* c[2], MHz *)
  freq_err : Q;     (* c[3], kHz *)
  pwr : Q           (* c[4] *)
}.

(** ** CalTool *)

Module CalTool.

(** [lines.decode('ascii')] *)
Definition decode_ascii (raw : str) : result str :=
  if forallb (fun c => (N_of_ascii c <? 128)%N) raw then Ok raw
  else Raise UnicodeDecodeError.

(** The body of the [for line in lines] loop of [listChannels], after the
    test for an empty line: [line] is stripped and not empty. *)
Definition parse_line (band : str) (line : str) : result chrec :=
  match split ":" line with
  | [_; ch; p] =>
      match split "(" (strip ch) with
      | [ch; freq] =>
          ch <- py_int ch ;;
          fe <- (if 0 <=? find "+" freq then
                   match split "+" (strip freq) with
                   | [freq; freq_err] => Ok (freq, freq_err)
                   | _ => Raise ValueError
                   end
                 else
                   match split "-" (strip freq) with
                   | [freq; freq_err] => Ok (freq, "-" :: strip freq_err)
                   | _ => Raise ValueError
                   end) ;;
          freq <- py_float (rstrip (lit "MHz") (strip (fst fe))) ;;
          freq_err <- py_float (rstrip (lit "kHz)")
                        (strip (rstrip (lit "power") (strip (snd fe))))) ;;
          p <- py_float (strip p) ;;
          Ok (mkCh band ch freq freq_err p)
      | _ => Raise ValueError
      end
  | _ => Raise ValueError
  end.

(** [for line in lines: ...], with [chlist] the list built so far *)
Fixpoint parse_lines (band : str) (lines : list str) (chlist : list chrec)
    : result (list chrec) :=
  match lines with
  | [] => Ok chlist
  | line :: rest =>
      let line := strip line in
      match line with
      | [] => parse_lines band rest chlist
      | _ :: _ =>
          c <- parse_line band line ;;
          parse_lines band rest (chlist ++ [c])
      end
  end.

(** [listChannels], given what [_check_output([BIN, '-s', band])] gives:
    the bytes the tool wrote, or the exception of a failed run *)
Definition listChannels (output : result str) (band : str)
    : result (list chrec) :=
  lines <- output ;;
  lines <- decode_ascii lines ;;
  let lines := split (ascii_of_N 10) lines in
  parse_lines band (tl lines) [].

Section Aggregator.

(** [measurePPM k band channel] is what the [k]-th call [self.measurePPM(band,
    channel)] of one aggregation gives: a PPM value or an exception.  The
    tool and the radio are outside the program. *)
Variable measurePPM : nat -> str -> Z -> result Q.

(** [for ch in channels: ...], with the loop's three accumulators *)
Fixpoint measure_loop (k : nat) (channels : list chrec)
    (ppms : list Q) (ppm pwr_ : Q) : result (list Q * Q * Q) :=
  match channels with
  | [] => Ok (ppms, ppm, pwr_)
  | c :: rest =>
      _ppm <- measurePPM k (band c) (ch c) ;;
      measure_loop (S k) rest (ppms ++ [_ppm])
        (ppm + _ppm * pwr c)%Q (pwr_ + pwr c)%Q
  end.

Definition measureMeanPPM (channels : list chrec) : result (Q * Q) :=
  acc <- measure_loop 0 channels [] 0%Q 0%Q ;;
  let '(ppms, ppm, pwr_) := acc in
  ppm <- py_truediv ppm pwr_ ;;
  ppm_err <- py_max (map (fun _ppm => Qabs (_ppm - ppm)) ppms) ;;
  Ok (ppm, ppm_err).

(** [measured k channels vals]: the calls from the [k]-th on, one for each
    channel, all succeed, and [vals] are the values they give. *)
Fixpoint measured (k : nat) (channels : list chrec) (vals : list Q) : Prop :=
  match channels, vals with
  | [], [] => True
  | c :: cs, v :: vs =>
      measurePPM k (band c) (ch c) = Ok v /\ measured (S k) cs vs
  | _, _ => False
  end.

End Aggregator.

End CalTool.

(** ** BTSChannels *)

Module BTSChannels.

Definition HDR : str := lit "band,channel,freq (MHz),freq deviation (kHz),power".

Definition LF : ascii := ascii_of_N 10.
Definition CR : ascii := ascii_of_N 13.

(** Reading in text mode: [\r\n] and a lone [\r] both arrive as [\n] *)
Fixpoint universal_newlines (raw : str) : str :=
  match raw with
  | [] => []
  | c :: t =>
      if Ascii.eqb c CR then
        match t with
        | d :: t' => if Ascii.eqb d LF then LF :: universal_newlines t'
                     else LF :: universal_newlines t
        | [] => [LF]
        end
      else c :: universal_newlines t
  end.

(** The lines a text file yields, each with its line feed *)
Fixpoint file_lines (text : str) : list str :=
  match text with
  | [] => []
  | c :: t =>
      if Ascii.eqb c LF then [c] :: file_lines t
      else match file_lines t with
           | h :: r => (c :: h) :: r
           | [] => [[c]]
           end
  end.

(** The first line of a text, without its line feed *)
Definition first_line (text : str) : str := hd [] (split LF text).

(** One pass of [for l in fch]: the tuple built from a line *)
Definition parse_row (l : str) : result chrec :=
  let l := split "," l in
  l0 <- py_getitem l 0 ;;
  l1 <- py_getitem l 1 ;;
  l1 <- py_int l1 ;;
  l2 <- py_getitem l 2 ;;
  l2 <- py_float l2 ;;
  l3 <- py_getitem l 3 ;;
  l3 <- py_float l3 ;;
  l4 <- py_getitem l 4 ;;
  l4 <- py_float l4 ;;
  Ok (mkCh l0 l1 l2 l3 l4).

Fixpoint parse_rows (fch : list str) : result (list chrec) :=
  match fch with
  | [] => Ok []
  | l :: rest =>
      c <- parse_row l ;;
      cs <- parse_rows rest ;;
      Ok (c :: cs)
  end.

(** [BTSChannels(src)] for a [str]: [raw] is the content of the file [src]
    names.  [readline()] gives the first line, or [''] at the end of file. *)
Definition load (raw : str) : result (list chrec) :=
  let fch := file_lines (universal_newlines raw) in
  let hdr := strip (hd [] fch) in
  if negb (str_eqb hdr HDR) then Raise ValueError
  else parse_rows (tl fch).

(** ['%s,%d,%f,%f,%.2f\n' % ch] *)
Definition format_row (c : chrec) : str :=
  band c ++ "," :: format_d (ch c) ++ "," :: format_f 6 (freq c)
    ++ "," :: format_f 6 (freq_err c) ++ "," :: format_f 2 (pwr c) ++ [LF].

(** [save]: the text written to the file *)
Definition save (self : list chrec) : str :=
  (HDR ++ [LF]) ++ concat (map format_row self).

(** The [for idx in range(0, len(channels))] loop; [st] is [(_f_err, _idx)]. *)
Fixpoint scan (channels : list chrec) (f_mean : Q) (idxs : list nat)
    (st : Q * Z) : result (Q * Z) :=
  match idxs with
  | [] => Ok st
  | idx :: rest =>
      c <- py_getitem channels (Z.of_nat idx) ;;
      let f_err := Qabs (freq_err c - f_mean) in
      scan channels f_mean rest
        (if Qltb (fst st) f_err then (f_err, Z.of_nat idx) else st)
  end.

(** One pass through the body of [while channels:] on a non-empty list:
    [None] is [break], [Some l] goes round again with [l]. *)
Definition body (max_freq_err : Q) (channels : list chrec)
    : result (option (list chrec)) :=
  f_mean <- py_truediv (py_sum (map freq_err channels))
                       (inject_Z (Z.of_nat (length channels))) ;;
  st <- scan channels f_mean (seq 0%nat (length channels)) (0%Q, -1) ;;
  if Qltb (fst st) max_freq_err then Ok None
  else
    channels' <- py_pop channels (snd st) ;;
    Ok (Some channels').

(** [while channels: ...], bounded by [fuel] tests of the loop condition *)
Fixpoint while (fuel : nat) (max_freq_err : Q) (channels : list chrec)
    : result (list chrec) :=
  match fuel with
  | O => Raise OutOfFuel
  | S fuel' =>
      match channels with
      | [] => Ok channels
      | _ :: _ =>
          r <- body max_freq_err channels ;;
          match r with
          | None => Ok channels
          | Some channels' => while fuel' max_freq_err channels'
          end
      end
  end.

Definition getBest_fuel (fuel : nat) (self : list chrec) (nchannels : Z)
    (max_freq_err : Q) : result (list chrec) :=
  channels <- while fuel max_freq_err self ;;
  Ok (py_slice_to (py_sort (fun c => (- pwr c)%Q) channels) nchannels).

(** The loop pops an element each time round, so one test more than the
    list is long is all it can use (see [while_fuel]). *)
Definition getBest (self : list chrec) (nchannels : Z) (max_freq_err : Q)
    : result (list chrec) :=
  getBest_fuel (S (length self)) self nchannels max_freq_err.

(** *** getBest on list objects

    Python lists are objects: [self[:]] and [channels[:nchannels]] make new
    ones, [pop] and [sort] change the one they are called on.  A heap holds
    the list of every object; the tuples in the lists are values. *)

Definition loc : Type := nat.

(** The objects made so far; a reference is a position in this list. *)
Definition heap : Type := list (list chrec).

Definition new_list (l : list chrec) (h : heap) : loc * heap :=
  (length h, h ++ [l]).

Definition get_list (x : loc) (h : heap) : result (list chrec) :=
  match nth_error h x with
  | Some l => Ok l
  | None => Raise NoObject
  end.

Fixpoint set_list (x : loc) (l : list chrec) (h : heap) : heap :=
  match h, x with
  | [], _ => []
  | _ :: t, O => l :: t
  | y :: t, S x' => y :: set_list x' l t
  end.

(** [while channels: ...] with [channels] a reference: the body reads the
    list [channels] holds and its [pop] writes it back. *)
Fixpoint while_obj (fuel : nat) (max_freq_err : Q) (channels : loc) (h : heap)
    : result heap :=
  match fuel with
  | O => Raise OutOfFuel
  | S fuel' =>
      l <- get_list channels h ;;
      match l with
      | [] => Ok h
      | _ :: _ =>
          r <- body max_freq_err l ;;
          match r with
          | None => Ok h
          | Some l' => while_obj fuel' max_freq_err channels (set_list channels l' h)
          end
      end
  end.

Definition getBest_obj (self : loc) (nchannels : Z) (max_freq_err : Q)
    (h : heap) : result (loc * heap) :=
  l <- get_list self h ;;
  let (channels, h) := new_list l h in                     (* self[:] *)
  h <- while_obj (S (length l)) max_freq_err channels h ;;
  l <- get_list channels h ;;
  let h := set_list channels (py_sort (fun c => (- pwr c)%Q) l) h in
  l <- get_list channels h ;;
  Ok (new_list (py_slice_to l nchannels) h).               (* channels[:n] *)

(** *** Bookkeeping for the proofs *)

(** [removals max_freq_err k l l']: [k] passes of the loop body, each
    popping one element, lead from [l] to [l']. *)
Inductive removals (max_freq_err : Q) : nat -> list chrec -> list chrec -> Prop :=
| removals_O : forall l, removals max_freq_err O l l
| removals_S : forall k l l1 l2,
    l <> [] ->
    body max_freq_err l = Ok (Some l1) ->
    removals max_freq_err k l1 l2 ->
    removals max_freq_err (S k) l l2.

(** The [for] loop of the body without the indexing: a pass over the
    elements from position [off] on. *)
Fixpoint scan_from (f_mean : Q) (off : nat) (l : list chrec) (st : Q * Z)
    : Q * Z :=
  match l with
  | [] => st
  | c :: t =>
      let f_err := Qabs (freq_err c - f_mean) in
      scan_from f_mean (S off) t
        (if Qltb (fst st) f_err then (f_err, Z.of_nat off) else st)
  end.

(** The mean the body computes for a non-empty list *)
Definition f_mean_of (l : list chrec) : Q :=
  (py_sum (map freq_err l) / inject_Z (Z.of_nat (length l)))%Q.

(** [i] is the first position of [ds] that holds its largest value. *)
Definition first_max (ds : list Q) (i : nat) : Prop :=
  (i < length ds)%nat /\
  (forall j, (j < length ds)%nat -> (nth j ds 0 <= nth i ds 0)%Q) /\
  (forall j, (j < i)%nat -> (nth j ds 0 < nth i ds 0)%Q).

End BTSChannels.

(** ** The selection algorithm as the specification words it *)

Module Reference.

Local Open Scope Q_scope.

Fixpoint Qsum (l : list Q) : Q :=
  match l with
  | [] => 0
  | x :: t => x + Qsum t
  end.



(** The arithmetic mean of the candidates' frequency deviation *)
Definition mean_deviation (cs : list chrec) : Q :=
  Qsum (map freq_err cs) / inject_Z (Z.of_nat (length cs)).

(** The absolute distance of a candidate's deviation from the mean *)
Definition distance (mean : Q) (c : chrec) : Q := Qabs (freq_err c - mean).

(** The position of the largest value, the first one among equals *)
Fixpoint first_argmax (ds : list Q) : option nat :=
  match ds with
  | [] => None
  | d :: t =>
      match first_argmax t with
      | None => Some O
      | Some j => if Qltb d (nth j t 0) then Some (S j) else Some O
      end
  end.

(** Rounds 2 and 3 of the selector: drop the worst candidate until the
    worst distance is below the threshold or nobody is left.  Each round
    drops one candidate, so [k] rounds are enough for [k] candidates. *)
Fixpoint prune (k : nat) (threshold : Q) (cs : list chrec) : list chrec :=
  match k with
  | O => cs
  | S k' =>
      let ds := map (distance (mean_deviation cs)) cs in
      match first_argmax ds with
      | None => cs
      | Some i =>
          if Qltb (nth i ds 0) threshold then cs
          else prune k' threshold (remove_at i cs)
      end
  end.

(** Descending by power; candidates of equal power keep their order. *)
Fixpoint insert_desc (x : chrec) (l : list chrec) : list chrec :=
  match l with
  | [] => [x]
  | y :: t => if Qltb (pwr x) (pwr y) then y :: insert_desc x t
              else x :: y :: t
  end.

Fixpoint sort_desc (l : list chrec) : list chrec :=
  match l with
  | [] => []
  | x :: t => insert_desc x (sort_desc t)
  end.

Definition getBest (cs : list chrec) (n : nat) (threshold : Q) : list chrec :=
  firstn n (sort_desc (prune (length cs) threshold cs)).

End Reference.

(** ** The channels of the selector scenario *)

Definition chan1 : chrec := mkCh (lit "GSM900") 1 900 (1 # 10) 50.
Definition chan2 : chrec := mkCh (lit "GSM900") 2 (9002 # 10) (5 # 10) 80.
Definition chan3 : chrec := mkCh (lit "GSM900") 3 (9004 # 10) 5 90.

(** Two channels with the same deviation *)
Definition twin1 : chrec := mkCh (lit "GSM900") 1 900 (1 # 2) 50.
Definition twin2 : chrec := mkCh (lit "GSM900") 2 (9002 # 10) (1 # 2) 80.

(** ** The channels and the tool of the aggregator scenario *)

Definition agg1 : chrec := mkCh (lit "GSM900") 1 900 (1 # 10) 10.
Definition agg2 : chrec := mkCh (lit "GSM900") 2 (9002 # 10) (5 # 10) 30.


(** A channel of power zero *)
Definition silent : chrec := mkCh (lit "GSM900") 7 900 (1 # 10) 0.

(** ** Lines of the tool's scan output *)

(** A non-empty run of decimal digits *)
Definition digits (ds : str) : bool :=
  match ds with
  | [] => false
  | _ :: _ => forallb isdigit ds
  end.

(** The number a run of digits spells *)
Definition num_of (ds : str) : N :=
  match digits_val ds with
  | Some n => n
  | None => 0%N
  end.

(** The number the decimal literal [ip.fp] spells *)
Definition decimal (ip fp : str) : Q :=
  Z.of_N (num_of (ip ++ fp)) # pow10 (length fp).

Definition sign_char (neg : bool) : ascii := if neg then "-" else "+".

(** [X: N (fi.ffMHz<sign>di.dfkHz) power: pi.pf], the line the code reads *)
Definition data_line (label n fi ff : str) (neg : bool) (di df pi pf : str)
    : str :=
  label ++ lit ": " ++ n ++ lit " (" ++ fi ++ lit "." ++ ff ++ lit "MHz"
    ++ [sign_char neg] ++ di ++ lit "." ++ df ++ lit "kHz) power: "
    ++ pi ++ lit "." ++ pf.

(** [X: N (fi.ffMHz<sign>di.dfkHz power): pi.pf], the line as the
    specification spells it *)
Definition spec_line (label n fi ff : str) (neg : bool) (di df pi pf : str)
    : str :=
  label ++ lit ": " ++ n ++ lit " (" ++ fi ++ lit "." ++ ff ++ lit "MHz"
    ++ [sign_char neg] ++ di ++ lit "." ++ df ++ lit "kHz power): "
    ++ pi ++ lit "." ++ pf.

(** A character class that holds no digit *)
Definition digit_free (p : ascii -> bool) : Prop :=
  forallb (fun d => negb (p d)) (lit "0123456789") = true.

(** Whether a string ends with a character outside the class [p] *)
Fixpoint last_ok (p : ascii -> bool) (x : str) : bool :=
  match x with
  | [] => false
  | c :: t => match t with
              | [] => negb (p c)
              | _ :: _ => last_ok p t
              end
  end.

(** ** Saving and loading again *)

(** Half a unit of the last of [prec] decimals *)
Definition half_unit (prec : nat) : Q := 1 # (2 * pow10 prec).

(** [c'] is [c] up to what [save] writes of it: the band and the channel
    number as they are, frequency and deviation to six decimals, the power
    to two *)
Definition row_close (c c' : chrec) : Prop :=
  band c' = band c /\ ch c' = ch c /\
  (Qabs (freq c' - freq c) <= half_unit 6)%Q /\
  (Qabs (freq_err c' - freq_err c) <= half_unit 6)%Q /\
  (Qabs (pwr c' - pwr c) <= half_unit 2)%Q.

(** A band name without the field separator and without a line break *)
Definition band_ok (c : chrec) : bool :=
  lacks "," (band c) && lacks BTSChannels.LF (band c)
    && lacks BTSChannels.CR (band c).

(** A written row without its line feed *)
Definition row_body (c : chrec) : str :=
  band c ++ "," :: format_d (ch c) ++ "," :: format_f 6 (freq c)
    ++ "," :: format_f 6 (freq_err c) ++ "," :: format_f 2 (pwr c).


(** ** Files and tool output used as examples *)

(** A scan: the banner, a line with a minus sign, a line of blanks and a
    line with a plus sign *)
Definition banner : str := lit "kal: Scanning for GSM-900 base stations.".

Definition scan_rest : str :=
  lit "    chan: 14 (937.8MHz-1.234kHz) power: 23456.78
   
chan: 5 (935.20MHz+0.02kHz) power: 12.50
".

Definition scan_output : str := banner ++ ascii_of_N 10 :: scan_rest.

(** The same with the second data line spelt as in the specification *)
Definition spec_output : str :=
  lit "kal: Scanning for GSM-900 base stations.
chan: 5 (935.20MHz+0.02kHz power): 12.50
".

(** A channel file whose header line starts with a blank *)
Definition padded_file : str :=
  lit " band,channel,freq (MHz),freq deviation (kHz),power
GSM900,1,900.0,0.1,50
".

(** A channel file with a header of another format *)
Definition alien_file : str :=
  lit "band;channel;freq;deviation;power
GSM900,1,900.0,0.1,50
".

(** ** CalTool.measurePPM and the calls of the tool *)

Module Tool.

Definition BIN : str := lit "kalibrate-rtl".

(** Whether [x] starts with [s] *)
Fixpoint prefix (s x : str) : bool :=
  match s, x with
  | [], _ => true
  | c :: s', d :: x' => Ascii.eqb c d && prefix s' x'
  | _ :: _, [] => false
  end.

(** Whether [s] occurs in [x] *)
Fixpoint occurs (s x : str) : bool :=
  match x with
  | [] => prefix s []
  | _ :: t => prefix s x || occurs s t
  end.

(** [x.split(sep)] for a separator of several characters: the occurrences
    are taken from the left and do not overlap.  [skip] counts the
    characters of an occurrence still to pass over. *)
Fixpoint split_str_from (sep : str) (skip : nat) (x : str) : list str :=
  match x with
  | [] => [[]]
  | c :: t =>
      match skip with
      | S k => split_str_from sep k t
      | O =>
          if prefix sep x then [] :: split_str_from sep (length sep - 1) t
          else match split_str_from sep 0 t with
               | h :: r => (c :: h) :: r
               | [] => [[c]]
               end
      end
  end.

Definition split_str (sep x : str) : list str := split_str_from sep 0 x.

(** The first run of characters that are not blanks, and what follows it *)
Fixpoint take_token (x : str) : str :=
  match x with
  | [] => []
  | c :: t => if isspace c then [] else c :: take_token t
  end.

Fixpoint drop_token (x : str) : str :=
  match x with
  | [] => []
  | c :: t => if isspace c then x else drop_token t
  end.

(** [x.split(maxsplit=1)]: the first word and, when something other than
    blanks follows it, the rest from its first character on *)
Definition split_ws1 (x : str) : list str :=
  match lstrip_with isspace x with
  | [] => []
  | c :: y =>
      match lstrip_with isspace (drop_token (c :: y)) with
      | [] => [take_token (c :: y)]
      | d :: rest => [take_token (c :: y); d :: rest]
      end
  end.

Definition marker : str := lit "average absolute error:".

(** [measurePPM], given what [_check_output([BIN, '-b', band, '-c',
    str(channel)], timeout=10)] gives *)
Definition measurePPM (output : result str) : result Q :=
  lines <- output ;;
  lines <- CalTool.decode_ascii lines ;;
  match split_str marker lines with
  | [_; ppm] =>
      match split_ws1 (strip ppm) with
      | [ppm; _] => py_float (strip ppm)
      | _ => Raise ValueError
      end
  | _ => Raise ValueError
  end.

(** The tool: what its [k]-th run of a program gives for a command line.
    The radio and the process are outside the program. *)
Definition tool : Type := nat -> list str -> result str.

Definition scan_argv (band : str) : list str := [BIN; lit "-s"; band].

Definition measure_argv (band : str) (channel : Z) : list str :=
  [BIN; lit "-b"; band; lit "-c"; format_d channel].

(** [tool.measurePPM] as [measureMeanPPM] calls it, the runs of one
    aggregation being the runs [k0], [k0 + 1], ... of the tool *)
Definition measure_with (run : tool) (k0 : nat) (k : nat) (band : str)
    (channel : Z) : result Q :=
  measurePPM (run (k0 + k)%nat (measure_argv band channel)).

End Tool.

(** ** The program *)

Module Main.

(** The parsed command line *)
Record args : Type := mkArgs {
  a_band : option str;       (* None unless -b is given *)
  a_channellist : str;
  a_nchannels : Z;
  a_scan : bool;
  a_verbose : bool           (* only lets the tool's stderr through *)
}.

(** The regular files and their text; the entry nearest the head counts. *)
Definition files : Type := list (str * str).

Fixpoint read (fs : files) (path : str) : option str :=
  match fs with
  | [] => None
  | (p, text) :: rest => if str_eqb p path then Some text else read rest path
  end.

Definition isfile (fs : files) (path : str) : bool :=
  match read fs path with
  | Some _ => true
  | None => false
  end.

Definition write (path text : str) (fs : files) : files := (path, text) :: fs.

(** How a run ends *)
Inductive outcome : Type :=
| Printed (text : str)       (* the line written by [print] *)
| Exited (status : Z)        (* [exit(status)] after the help text *)
| Uncaught (e : exn)
| OpenFailed.                (* [open] of a file that is not there *)

(** [not args.band] *)
Definition no_band (b : option str) : bool :=
  match b with
  | Some (_ :: _) => false
  | _ => true
  end.

(** Lines 130 to 135: whether to scan, and the list file to read *)
Definition plan (a : args) (fs : files) : bool * str :=
  if negb (a_scan a) && negb (isfile fs (a_channellist a)) then
    let channellist := a_channellist a ++ lit ".csv" in
    if negb (isfile fs channellist) then (true, a_channellist a)
    else (false, channellist)
  else (a_scan a, a_channellist a).

(** Lines 145 and 146, the measurements being the runs of the tool from
    the [k0]-th on *)
Definition report (run : Tool.tool) (k0 : nat) (nchannels : Z)
    (channels : list chrec) : outcome :=
  match BTSChannels.getBest channels nchannels (6 # 10) with
  | Raise e => Uncaught e
  | Ok best =>
      match CalTool.measureMeanPPM (Tool.measure_with run k0) best with
      | Raise e => Uncaught e
      | Ok (ppm, ppm_err) =>
          Printed (format_f 2 ppm ++ lit "ppm +-" ++ format_f 6 ppm_err
                     ++ [BTSChannels.LF])
      end
  end.

Definition main (run : Tool.tool) (a : args) (fs : files) : outcome * files :=
  let (scan, channellist) := plan a fs in
  if scan then
    if no_band (a_band a) then (Exited 1, fs)
    else
      let band := match a_band a with Some b => b | None => [] end in
      match CalTool.listChannels (run 0%nat (Tool.scan_argv band)) band with
      | Raise e => (Uncaught e, fs)
      | Ok channels =>
          let fs := write channellist (BTSChannels.save channels) fs in
          (report run 1 (a_nchannels a) channels, fs)
      end
  else
    match read fs channellist with
    | None => (OpenFailed, fs)
    | Some raw =>
        match BTSChannels.load raw with
        | Raise e => (Uncaught e, fs)
        | Ok channels => (report run 0 (a_nchannels a) channels, fs)
        end
    end.

End Main.

(** ** Notions the further properties are stated with *)



(** A line that [strip] empties *)
Definition blank (line : str) : bool :=
  match strip line with
  | [] => true
  | _ :: _ => false
  end.

Definition count_char (c : ascii) (x : str) : nat :=
  length (filter (Ascii.eqb c) x).

(** What [decode('ascii')] accepts *)
Definition is_ascii (raw : str) : bool :=
  forallb (fun c => (N_of_ascii c <? 128)%N) raw.

(** A scan whose second line names the band *)
Definition header_output : str :=
  lit "kal: Scanning for GSM-900 base stations.
GSM-900:
chan: 5 (935.20MHz+0.02kHz) power: 12.50
".

(** [q] has at most [prec] decimals *)
Definition has_decimals (prec : nat) (q : Q) : Prop :=
  exists z : Z, (q == z # pow10 prec)%Q.

(** [c'] has the band, the channel number and the values of [c] *)
Definition row_same (c c' : chrec) : Prop :=
  band c' = band c /\ ch c' = ch c /\
  (freq c' == freq c)%Q /\ (freq_err c' == freq_err c)%Q /\
  (pwr c' == pwr c)%Q.

(** A record [save] writes without rounding *)
Definition row_exact (c : chrec) : Prop :=
  has_decimals 6 (freq c) /\ has_decimals 6 (freq_err c) /\
  has_decimals 2 (pwr c).

(** [parse_row] in terms of the first five fields of the line *)
Definition row_of_fields (l0 l1 l2 l3 l4 : str) : result chrec :=
  l1 <- py_int l1 ;;
  l2 <- py_float l2 ;;
  l3 <- py_float l3 ;;
  l4 <- py_float l4 ;;
  Ok (mkCh l0 l1 l2 l3 l4).

(** A decimal number with or without a minus sign *)
Definition signed (neg : bool) (ip fp : str) : str :=
  (if neg then ["-"] else []) ++ ip ++ lit "." ++ fp.

(** An output of the tool in measuring mode: [pre], the marker, blanks,
    the number, blanks, and a rest that starts with the character [c] *)
Definition ppm_output (pre ws1 : str) (neg : bool) (ip fp ws2 : str)
    (c : ascii) (tail : str) : str :=
  pre ++ Tool.marker ++ ws1 ++ signed neg ip fp ++ ws2 ++ c :: tail.

(** A string without a blank *)
Definition solid (x : str) : bool := forallb (fun c => negb (isspace c)) x.

(** A scan is due: asked for, or neither list file is there *)
Definition must_scan (a : Main.args) (fs : Main.files) : Prop :=
  Main.a_scan a = true \/
  (Main.isfile fs (Main.a_channellist a) = false /\
   Main.isfile fs (Main.a_channellist a ++ lit ".csv") = false).

(** A tool that prints its banner and nothing else *)
Definition quiet_tool : Tool.tool := fun _ _ => Ok banner.

(** A tool that scans two channels and then measures 12.345 ppm *)
Definition scan_tool : Tool.tool :=
  fun k _ =>
    match k with
    | O => Ok scan_output
    | S _ => Ok (lit "average absolute error: 12.345 ppm
")
    end.

Definition args_plain : Main.args :=
  Main.mkArgs (Some (lit "GSM900")) (lit "bts_channels.csv") 3 false false.

Definition args_no_band : Main.args :=
  Main.mkArgs None (lit "bts_channels.csv") 3 false false.

(** Only the [.csv] twin of the list file is there *)
Definition twin_only : Main.files :=
  [(lit "bts_channels.csv.csv", BTSChannels.save [chan1; chan2; chan3])].

(** * Proofs *)

(** ** The built-ins on sample arguments *)

Example format_f_six : format_f 6 (9002 # 10) = lit "900.200000".
Proof. vm_compute. reflexivity. Qed.

Example format_f_two_ties_to_even : format_f 2 (- (1 # 8)) = lit "-0.12".
Proof. vm_compute. reflexivity. Qed.

Example format_f_keeps_sign : format_f 2 (- (1 # 1000)) = lit "-0.00".
Proof. vm_compute. reflexivity. Qed.

Example format_d_negative : format_d (-120) = lit "-120".
Proof. vm_compute. reflexivity. Qed.

Example py_float_blanks : py_float (lit " -0.15 ") = Ok (- (15 # 100))%Q.
Proof. vm_compute. reflexivity. Qed.

Example py_float_letters : py_float (lit "0.02kHz power") = Raise ValueError.
Proof. vm_compute. reflexivity. Qed.

Example py_int_blank : py_int (lit "14 ") = Ok 14.
Proof. vm_compute. reflexivity. Qed.

Example split_colon : split ":" (lit "a: b:c") = [lit "a"; lit " b"; lit "c"].
Proof. vm_compute. reflexivity. Qed.

Example rstrip_set : rstrip (lit "kHz)") (lit "0.02kHz power)") = lit "0.02kHz power".
Proof. vm_compute. reflexivity. Qed.

Example rstrip_power : rstrip (lit "power") (lit "0.02kHz power)") = lit "0.02kHz power)".
Proof. vm_compute. reflexivity. Qed.

Example save_scenario :
  BTSChannels.save [chan1; chan2; chan3] =
  lit "band,channel,freq (MHz),freq deviation (kHz),power
GSM900,1,900.000000,0.100000,50.00
GSM900,2,900.200000,0.500000,80.00
GSM900,3,900.400000,5.000000,90.00
".
Proof. vm_compute. reflexivity. Qed.

Example pop_last : py_pop [1; 2; 3] (-1) = Ok [1; 2].
Proof. reflexivity. Qed.

Example slice_negative : py_slice_to [1; 2; 3] (-1) = [1; 2].
Proof. reflexivity. Qed.

(** ** Order on the rationals, indexing *)

Lemma Qltb_lt (a b : Q) : Qltb a b = true <-> (a < b)%Q.
Proof. unfold Qltb, Qlt. apply Z.ltb_lt. Qed.

Lemma Qltb_ge (a b : Q) : Qltb a b = false <-> (b <= a)%Q.
Proof. unfold Qltb, Qle. rewrite Z.ltb_ge. reflexivity. Qed.

Lemma Qltb_spec (a b : Q) : BoolSpec (a < b)%Q (b <= a)%Q (Qltb a b).
Proof.
  destruct (Qltb a b) eqn:E; constructor.
  - now apply Qltb_lt.
  - now apply Qltb_ge.
Qed.


Lemma norm_index_nat (n j : nat) :
  (j < n)%nat -> py_norm_index n (Z.of_nat j) = Ok j.
Proof.
  intros H. unfold py_norm_index.
  destruct (Z.ltb_spec (Z.of_nat j) 0); [lia|].
  destruct (Z.ltb_spec (Z.of_nat j) 0); [lia|].
  destruct (Z.leb_spec (Z.of_nat n) (Z.of_nat j)); [lia|].
  simpl. now rewrite Nat2Z.id.
Qed.

Lemma norm_index_last (n : nat) :
  py_norm_index (S n) (-1) = Ok n.
Proof.
  unfold py_norm_index.
  replace (-1 <? 0) with true by reflexivity.
  destruct (Z.ltb_spec (-1 + Z.of_nat (S n)) 0); [lia|].
  destruct (Z.leb_spec (Z.of_nat (S n)) (-1 + Z.of_nat (S n))); [lia|].
  simpl orb. cbv iota. f_equal. lia.
Qed.

Lemma getitem_nat {A : Type} (l : list A) (j : nat) (x : A) :
  nth_error l j = Some x -> py_getitem l (Z.of_nat j) = Ok x.
Proof.
  intros H. unfold py_getitem.
  rewrite norm_index_nat.
  - simpl. now rewrite H.
  - apply nth_error_Some. congruence.
Qed.

Lemma remove_at_length {A : Type} (j : nat) (l : list A) :
  (j < length l)%nat -> S (length (remove_at j l)) = length l.
Proof.
  revert j. induction l as [|x t IH]; intros [|j] H; simpl in *;
    try lia. rewrite IH; [reflexivity | lia].
Qed.

Lemma remove_at_In {A : Type} (j : nat) (l : list A) (x : A) :
  In x (remove_at j l) -> In x l.
Proof.
  revert j. induction l as [|y t IH]; intros [|j] H; simpl in *;
    try contradiction; [now right|].
  destruct H as [H|H]; [now left | right; eauto].
Qed.

(** ** The scan of the loop body *)

Module ScanFacts.
Import BTSChannels.

Lemma scan_scan_from (f_mean : Q) (pre suf : list chrec) (st : Q * Z) :
  scan (pre ++ suf) f_mean (seq (length pre) (length suf)) st =
  Ok (scan_from f_mean (length pre) suf st).
Proof.
  revert pre st. induction suf as [|c t IH]; intros pre st; [reflexivity|].
  cbn [length seq scan scan_from].
  rewrite (getitem_nat _ _ c).
  2:{ rewrite nth_error_app2 by lia. now rewrite Nat.sub_diag. }
  cbn [bind].
  specialize (IH (pre ++ [c])).
  rewrite <- app_assoc, length_app in IH. cbn [length app] in IH.
  rewrite Nat.add_1_r in IH. apply IH.
Qed.

Lemma first_argmax_bound (ds : list Q) (j : nat) :
  Reference.first_argmax ds = Some j -> (j < length ds)%nat.
Proof.
  revert j. induction ds as [|d t IH]; intros j H; simpl in *; [discriminate|].
  destruct (Reference.first_argmax t) as [k|].
  - specialize (IH k eq_refl).
    destruct (Qltb d (nth k t 0%Q)); injection H as <-; lia.
  - injection H as <-. lia.
Qed.

Lemma first_argmax_some (d : Q) (t : list Q) :
  exists j, Reference.first_argmax (d :: t) = Some j.
Proof.
  simpl. destruct (Reference.first_argmax t) as [k|]; [|eauto].
  destruct (Qltb d (nth k t 0%Q)); eauto.
Qed.



Lemma first_max_unique (ds : list Q) (i j : nat) :
  first_max ds i -> first_max ds j -> i = j.
Proof.
  intros (Hi & Hmi & Hfi) (Hj & Hmj & Hfj).
  destruct (Nat.lt_trichotomy i j) as [H|[H|H]]; [|assumption|].
  - specialize (Hfj i H). specialize (Hmi j Hj). lra.
  - specialize (Hfi j H). specialize (Hmj i Hi). lra.
Qed.


Lemma scan_from_argmax (f_mean : Q) (off : nat) (l : list chrec) (e : Q) (i : Z) :
  scan_from f_mean off l (e, i) =
  match Reference.first_argmax (map (Reference.distance f_mean) l) with
  | None => (e, i)
  | Some j =>
      let m := nth j (map (Reference.distance f_mean) l) 0%Q in
      if Qltb e m then (m, Z.of_nat (off + j)) else (e, i)
  end.
Proof.
  revert off e i. induction l as [|c t IH]; intros off e i; [reflexivity|].
  cbn [scan_from map Reference.first_argmax fst].
  fold (Reference.distance f_mean c).
  set (d := Reference.distance f_mean c).
  set (ds := map (Reference.distance f_mean) t) in *.
  destruct (Qltb_spec e d) as [Hed|Hed]; rewrite IH;
    destruct (Reference.first_argmax ds) as [k|]; cbn zeta.
  - destruct (Qltb_spec d (nth k ds 0%Q)) as [Hdm|Hdm]; cbn [nth].
    + destruct (Qltb_spec e (nth k ds 0%Q)); [|lra].
      do 2 f_equal. lia.
    + destruct (Qltb_spec e d); [|lra]. do 2 f_equal. lia.
  - cbn [nth]. destruct (Qltb_spec e d); [|lra]. do 2 f_equal. lia.
  - destruct (Qltb_spec d (nth k ds 0%Q)) as [Hdm|Hdm]; cbn [nth].
    + destruct (Qltb_spec e (nth k ds 0%Q)); [|reflexivity].
      do 2 f_equal. lia.
    + destruct (Qltb_spec e (nth k ds 0%Q)); [lra|].
      destruct (Qltb_spec e d); [lra|reflexivity].
  - cbn [nth]. destruct (Qltb_spec e d); [lra|reflexivity].
Qed.

End ScanFacts.

(** ** The loop of getBest *)

Module LoopFacts.
Import BTSChannels ScanFacts.

Lemma body_unfold (thr : Q) (c : chrec) (t : list chrec) :
  body thr (c :: t) =
  let st := scan_from (f_mean_of (c :: t)) 0 (c :: t) (0%Q, -1) in
  if Qltb (fst st) thr then Ok None
  else (l <- py_pop (c :: t) (snd st) ;; Ok (Some l)).
Proof.
  unfold body, py_truediv.
  replace (Qeq_bool (inject_Z (Z.of_nat (length (c :: t)))) 0) with false.
  2:{ symmetry. apply not_true_is_false. intros H.
      apply Qeq_bool_eq in H. unfold Qeq in H. simpl in H. lia. }
  cbn [bind]. fold (f_mean_of (c :: t)).
  rewrite (scan_scan_from _ [] (c :: t)). reflexivity.
Qed.


(** What one pass of the body does, by the largest distance [m] from the
    mean and its first position [j]. *)
Lemma body_cases (thr : Q) (c : chrec) (t : list chrec) :
  exists j,
    Reference.first_argmax
      (map (Reference.distance (f_mean_of (c :: t))) (c :: t)) = Some j /\
    (j < length (c :: t))%nat /\
    body thr (c :: t) =
      let m := nth j (map (Reference.distance (f_mean_of (c :: t))) (c :: t)) 0%Q in
      if Qltb 0 m then
        if Qltb m thr then Ok None else Ok (Some (remove_at j (c :: t)))
      else
        if Qltb 0 thr then Ok None
        else Ok (Some (remove_at (length t) (c :: t))).
Proof.
  set (cs := c :: t).
  destruct (first_argmax_some
              (Reference.distance (f_mean_of cs) c)
              (map (Reference.distance (f_mean_of cs)) t)) as [j Hj].
  change (Reference.first_argmax (map (Reference.distance (f_mean_of cs)) cs)
          = Some j) in Hj.
  exists j. split; [exact Hj|].
  pose proof (first_argmax_bound _ _ Hj) as Hb. rewrite length_map in Hb.
  split; [exact Hb|].
  unfold cs at 1. rewrite body_unfold. fold cs.
  rewrite scan_from_argmax, Hj. cbn zeta.
  destruct (Qltb 0 (nth j (map (Reference.distance (f_mean_of cs)) cs) 0%Q));
    cbn [fst snd].
  - destruct (Qltb _ thr); [reflexivity|].
    unfold py_pop. rewrite Nat.add_0_l, norm_index_nat by exact Hb. reflexivity.
  - destruct (Qltb 0 thr); [reflexivity|].
    unfold py_pop, cs. cbn [length]. rewrite norm_index_last. reflexivity.
Qed.

(** A pass that pops leaves the list without one of its elements. *)
Lemma body_pops (thr : Q) (l l' : list chrec) :
  l <> [] -> body thr l = Ok (Some l') ->
  exists j, (j < length l)%nat /\ l' = remove_at j l.
Proof.
  destruct l as [|c t]; [congruence|]. intros _ H.
  destruct (body_cases thr c t) as (j & _ & Hb & E).
  rewrite E in H. cbn zeta in H.
  repeat match type of H with
         | context [if ?b then _ else _] => destruct b
         end; try discriminate; injection H as <-.
  - eauto.
  - exists (length t). split; [simpl; lia | reflexivity].
Qed.

(** A pass over a non-empty list raises nothing. *)
Lemma body_total (thr : Q) (l : list chrec) :
  l <> [] -> exists r, body thr l = Ok r.
Proof.
  destruct l as [|c t]; [congruence|]. intros _.
  destruct (body_cases thr c t) as (j & _ & _ & E).
  rewrite E. cbn zeta.
  repeat match goal with
         | |- context [if ?b then _ else _] => destruct b
         end; eauto.
Qed.

Lemma while_removals (thr : Q) (fuel : nat) : forall l : list chrec,
  (length l < fuel)%nat ->
  exists r k,
    while fuel thr l = Ok r /\ removals thr k l r /\
    (length r + k = length l)%nat /\ (r = [] \/ body thr r = Ok None).
Proof.
  induction fuel as [|fuel IH]; intros l Hl; [lia|].
  destruct l as [|c t].
  - exists [], O. repeat split; [constructor | now left].
  - cbn [while].
    destruct (body_total thr (c :: t)) as [[l'|] E]; [congruence| |];
      rewrite E; cbn [bind].
    + destruct (body_pops thr (c :: t) l') as (j & Hj & ->);
        [congruence | exact E |].
      pose proof (remove_at_length j (c :: t) Hj) as Hlen.
      destruct (IH (remove_at j (c :: t))) as (r & k & Hw & Hr & Hk & Hend);
        [simpl in *; lia|].
      exists r, (S k). split; [exact Hw|]. split.
      * eapply removals_S; [congruence | exact E | exact Hr].
      * split; [lia | exact Hend].
    + exists (c :: t), O. repeat split; [constructor | lia | now right].
Qed.

(** More fuel than the list is long changes nothing. *)
Lemma while_fuel (thr : Q) (fuel : nat) : forall l : list chrec,
  (length l < fuel)%nat ->
  while fuel thr l = while (S (length l)) thr l.
Proof.
  induction fuel as [|fuel IH]; intros l Hl; [lia|].
  destruct l as [|c t]; [reflexivity|].
  cbn [while].
  destruct (body thr (c :: t)) as [[l'|]|e] eqn:E; cbn [bind]; try reflexivity.
  destruct (body_pops thr (c :: t) l') as (j & Hj & ->);
    [congruence | exact E |].
  pose proof (remove_at_length j (c :: t) Hj) as Hlen.
  rewrite IH by (simpl in *; lia).
  now rewrite Hlen.
Qed.

End LoopFacts.

(** ** The code against the reference algorithm *)

Module RefFacts.
Import BTSChannels ScanFacts LoopFacts.










Lemma sort_insert_desc (x : chrec) (l : list chrec) :
  sort_insert (fun c => (- pwr c)%Q) x l = Reference.insert_desc x l.
Proof.
  induction l as [|y t IH]; [reflexivity|]. simpl.
  rewrite IH.
  destruct (Qltb_spec (- pwr y) (- pwr x)), (Qltb_spec (pwr x) (pwr y));
    (reflexivity || lra).
Qed.

Lemma py_sort_desc (l : list chrec) :
  py_sort (fun c => (- pwr c)%Q) l = Reference.sort_desc l.
Proof.
  induction l as [|x t IH]; [reflexivity|]. simpl.
  now rewrite IH, sort_insert_desc.
Qed.

(** The reference sort does sort: what it returns is a rearrangement of
    its argument in which no record is followed by a stronger one. *)
Lemma insert_desc_perm (x : chrec) (l : list chrec) :
  Permutation (Reference.insert_desc x l) (x :: l).
Proof.
  induction l as [|y t IH]; simpl; [reflexivity|].
  destruct (Qltb (pwr x) (pwr y)); [|reflexivity].
  rewrite IH. apply perm_swap.
Qed.

Lemma sort_desc_perm (l : list chrec) : Permutation (Reference.sort_desc l) l.
Proof.
  induction l as [|x t IH]; simpl; [reflexivity|].
  rewrite insert_desc_perm. now constructor.
Qed.

Lemma insert_desc_sorted (x : chrec) (l : list chrec) :
  Sorted (fun a b => (pwr b <= pwr a)%Q) l ->
  Sorted (fun a b => (pwr b <= pwr a)%Q) (Reference.insert_desc x l).
Proof.
  induction 1 as [|y t Ht IH Hy]; simpl; [repeat constructor|].
  destruct (Qltb_spec (pwr x) (pwr y)) as [Hlt|Hge].
  - constructor; [exact IH|].
    destruct t as [|z u]; simpl.
    + constructor. lra.
    + destruct (Qltb_spec (pwr x) (pwr z)); constructor; [|lra].
      now inversion Hy.
  - constructor; [now constructor | now constructor].
Qed.

Lemma sort_desc_sorted (l : list chrec) :
  Sorted (fun a b => (pwr b <= pwr a)%Q) (Reference.sort_desc l).
Proof.
  induction l as [|x t IH]; simpl; [constructor|].
  now apply insert_desc_sorted.
Qed.


End RefFacts.

(** ** Sorting and slicing keep the elements *)

Lemma sort_insert_perm {A : Type} (key : A -> Q) (x : A) (l : list A) :
  Permutation (sort_insert key x l) (x :: l).
Proof.
  induction l as [|y t IH]; simpl; [reflexivity|].
  destruct (Qltb (key y) (key x)); [|reflexivity].
  rewrite IH. apply perm_swap.
Qed.

Lemma py_sort_perm {A : Type} (key : A -> Q) (l : list A) :
  Permutation (py_sort key l) l.
Proof.
  induction l as [|x t IH]; simpl; [reflexivity|].
  rewrite sort_insert_perm. now constructor.
Qed.

Lemma firstn_In {A : Type} (k : nat) (l : list A) (x : A) :
  In x (firstn k l) -> In x l.
Proof.
  intros H. rewrite <- (firstn_skipn k l). apply in_or_app. now left.
Qed.

Lemma slice_to_In {A : Type} (l : list A) (n : Z) (x : A) :
  In x (py_slice_to l n) -> In x l.
Proof. unfold py_slice_to. destruct (n <? 0); apply firstn_In. Qed.

Lemma slice_to_length {A : Type} (l : list A) (n : Z) :
  (length (py_slice_to l n) <= length l)%nat.
Proof.
  unfold py_slice_to. destruct (n <? 0); rewrite length_firstn; lia.
Qed.

(** ** getBest on list objects *)

Module HeapFacts.
Import BTSChannels LoopFacts.

Lemma set_list_eq (x : loc) (l l0 : list chrec) (h : heap) :
  nth_error h x = Some l0 -> nth_error (set_list x l h) x = Some l.
Proof.
  revert x. induction h as [|y t IH]; intros [|x] H; simpl in *;
    try discriminate; [reflexivity | eauto].
Qed.

Lemma set_list_same (x : loc) (l : list chrec) (h : heap) :
  nth_error h x = Some l -> set_list x l h = h.
Proof.
  revert x. induction h as [|y t IH]; intros [|x] H; simpl in *;
    try discriminate; [congruence | f_equal; eauto].
Qed.

Lemma set_list_twice (x : loc) (l l' : list chrec) (h : heap) :
  set_list x l' (set_list x l h) = set_list x l' h.
Proof.
  revert x. induction h as [|y t IH]; intros [|x]; simpl;
    try reflexivity. f_equal. apply IH.
Qed.

Lemma set_list_last (l l' : list chrec) (h : heap) :
  set_list (length h) l' (h ++ [l]) = h ++ [l'].
Proof. induction h as [|y t IH]; simpl; [reflexivity | now rewrite IH]. Qed.

(** The loop on the object [channels] writes only [channels], and leaves
    there what the loop on its list computes. *)
Lemma while_obj_while (thr : Q) (fuel : nat) :
  forall (channels : loc) (h : heap) (l : list chrec),
    nth_error h channels = Some l ->
    while_obj fuel thr channels h =
    (r <- while fuel thr l ;; Ok (set_list channels r h)).
Proof.
  induction fuel as [|fuel IH]; intros x h l Hx; [reflexivity|].
  cbn [while_obj while]. unfold get_list. rewrite Hx. cbn [bind].
  destruct l as [|c t].
  - cbn [bind]. now rewrite set_list_same.
  - destruct (body thr (c :: t)) as [[l'|]|e]; cbn [bind].
    + rewrite (IH _ _ l') by (eapply set_list_eq; eauto).
      destruct (while fuel thr l'); cbn [bind]; [|reflexivity].
      now rewrite set_list_twice.
    + now rewrite set_list_same.
    + reflexivity.
Qed.

Lemma getBest_obj_run (h : heap) (self : loc) (l : list chrec) (n : Z) (thr : Q) :
  nth_error h self = Some l ->
  exists survivors,
    while (S (length l)) thr l = Ok survivors /\
    getBest_obj self n thr h =
    Ok (S (length h),
        h ++ [py_sort (fun c => (- pwr c)%Q) survivors;
              py_slice_to (py_sort (fun c => (- pwr c)%Q) survivors) n]).
Proof.
  intros Hself.
  destruct (while_removals thr (S (length l)) l) as (r & k & Hw & _);
    [lia|].
  exists r. split; [exact Hw|].
  unfold getBest_obj, get_list, new_list. rewrite Hself. cbn [bind].
  rewrite (while_obj_while _ _ _ _ l).
  2:{ rewrite nth_error_app2 by lia. now rewrite Nat.sub_diag. }
  rewrite Hw. cbn [bind].
  rewrite set_list_last.
  rewrite nth_error_app2 by lia. rewrite Nat.sub_diag. cbn [nth_error bind].
  rewrite set_list_last.
  rewrite nth_error_app2 by lia. rewrite Nat.sub_diag. cbn [nth_error bind].
  rewrite length_app, Nat.add_1_r, <- app_assoc. reflexivity.
Qed.

End HeapFacts.

(** * The selector *)

Section Selector.
Import BTSChannels.


(** C4: a pass of the loop body that pops leaves exactly one element
    less; the loop started on [l] returns after at most [length l] such
    passes, with a list that is empty or on which the body breaks; and
    [getBest] always returns a list, the empty one when the loop leaves
    nothing. *)
Theorem getBest_loop_terminates :
  (forall (thr : Q) (l l' : list chrec),
      l <> [] -> body thr l = Ok (Some l') ->
      S (length l') = length l /\
      exists j, (j < length l)%nat /\ l' = remove_at j l) /\
  (forall (thr : Q) (l : list chrec),
      exists r k,
        while (S (length l)) thr l = Ok r /\ removals thr k l r /\
        (k <= length l)%nat /\ (length r + k = length l)%nat /\
        (r = [] \/ body thr r = Ok None)) /\
  (forall (thr : Q) (fuel : nat) (l : list chrec),
      (length l < fuel)%nat -> while fuel thr l = while (S (length l)) thr l) /\
  (forall (self : list chrec) (n : Z) (thr : Q),
      exists r, getBest self n thr = Ok r /\ (length r <= length self)%nat) /\
  (forall (self : list chrec) (n : Z) (thr : Q),
      while (S (length self)) thr self = Ok [] -> getBest self n thr = Ok []).
Proof.
  split; [|split; [|split; [|split]]].
  - intros thr l l' Hne Hb.
    destruct (LoopFacts.body_pops thr l l' Hne Hb) as (j & Hj & ->).
    split; [now apply remove_at_length | eauto].
  - intros thr l.
    destruct (LoopFacts.while_removals thr (S (length l)) l) as (r & k & H1 & H2 & H3 & H4);
      [lia|].
    exists r, k. repeat split; try assumption. lia.
  - intros thr fuel l. apply LoopFacts.while_fuel.
  - intros self n thr.
    destruct (LoopFacts.while_removals thr (S (length self)) self) as (r & k & H1 & _ & H3 & _);
      [lia|].
    unfold getBest, getBest_fuel. rewrite H1. cbn [bind].
    eexists. split; [reflexivity|].
    etransitivity; [apply slice_to_length|].
    rewrite (Permutation_length (py_sort_perm _ r)). lia.
  - intros self n thr H. unfold getBest, getBest_fuel. rewrite H.
    cbn [bind py_sort]. unfold py_slice_to. now rewrite !firstn_nil, Tauto.if_same.
Qed.

Lemma getBest_loop_terminates_witness :
  (S (length [twin1]) = length [twin1; twin2]) /\
  body 0 [twin1; twin2] = Ok (Some [twin1]) /\
  while 7 0 [twin1; twin2] = while 3 0 [twin1; twin2] /\
  getBest [twin1; twin2] 3 0 = Ok [].
Proof.
  assert (Hb : body 0 [twin1; twin2] = Ok (Some [twin1]))
    by (vm_compute; reflexivity).
  destruct getBest_loop_terminates as (H1 & _ & H3 & _ & H5).
  split; [|split; [|split]].
  - apply (H1 0%Q [twin1; twin2] [twin1]); [discriminate | exact Hb].
  - exact Hb.
  - apply (H3 0%Q 7%nat [twin1; twin2]). simpl. lia.
  - apply (H5 [twin1; twin2] 3 0%Q). vm_compute. reflexivity.
Defined.




End Selector.

(** * The list getBest is called on *)

Section Frame.
Import BTSChannels.

Lemma removals_In (thr : Q) (k : nat) (l r : list chrec) (c : chrec) :
  removals thr k l r -> In c r -> In c l.
Proof.
  induction 1 as [|k l l1 l2 Hne Hb _ IH]; intros Hc; [assumption|].
  destruct (LoopFacts.body_pops thr l l1 Hne Hb) as (j & _ & ->).
  eapply remove_at_In, IH, Hc.
Qed.

(** C9: [getBest] called on the list object [self] returns a new object:
    [self] holds the same records in the same order afterwards, every
    object there was before holds what it held, and the records of the
    returned list are records of [self]. *)
Theorem getBest_leaves_self_alone :
  forall (h : heap) (self : loc) (l : list chrec) (n : Z) (thr : Q),
    nth_error h self = Some l ->
    exists (r : loc) (h' : heap) (res : list chrec),
      getBest_obj self n thr h = Ok (r, h') /\
      get_list self h' = Ok l /\
      (forall x l0, nth_error h x = Some l0 -> nth_error h' x = Some l0) /\
      nth_error h r = None /\
      get_list r h' = Ok res /\
      getBest l n thr = Ok res /\
      (forall c, In c res -> In c l).
Proof.
  intros h self l n thr Hself.
  destruct (HeapFacts.getBest_obj_run h self l n thr Hself) as (sv & Hw & Hrun).
  assert (Hold : forall x l0, nth_error h x = Some l0 ->
            nth_error (h ++ [py_sort (fun c => (- pwr c)%Q) sv;
                             py_slice_to (py_sort (fun c => (- pwr c)%Q) sv) n]) x
            = Some l0).
  { intros x l0 Hx. rewrite nth_error_app1; [exact Hx|].
    apply nth_error_Some. congruence. }
  eexists _, _, _. split; [exact Hrun|].
  split; [unfold get_list; now rewrite (Hold _ _ Hself)|].
  split; [exact Hold|].
  split; [apply nth_error_None; lia|].
  split.
  { unfold get_list. rewrite nth_error_app2 by lia.
    replace (S (length h) - length h)%nat with 1%nat by lia. reflexivity. }
  split; [unfold getBest, getBest_fuel; now rewrite Hw|].
  intros c Hc. apply slice_to_In in Hc.
  apply (Permutation_in _ (py_sort_perm _ sv)) in Hc.
  destruct (LoopFacts.while_removals thr (S (length l)) l) as (r & k & Hw' & Hr & _);
    [lia|].
  rewrite Hw in Hw'. injection Hw' as <-.
  eapply removals_In; eauto.
Qed.

Lemma getBest_leaves_self_alone_witness :
  exists (r : loc) (h' : heap) (res : list chrec),
    getBest_obj 0%nat 2 (6 # 10) [[chan1; chan2; chan3]] = Ok (r, h') /\
    get_list 0%nat h' = Ok [chan1; chan2; chan3] /\
    get_list r h' = Ok res /\
    forall c, In c res -> In c [chan1; chan2; chan3].
Proof.
  destruct (getBest_leaves_self_alone [[chan1; chan2; chan3]] 0%nat
              [chan1; chan2; chan3] 2 (6 # 10)%Q eq_refl)
    as (r & h' & res & H1 & H2 & _ & _ & H5 & _ & H7).
  exists r, h', res. repeat split; assumption.
Defined.

End Frame.

(** * The aggregator *)

Module AggFacts.
Import CalTool.







End AggFacts.

Section AggregatorClaims.
Import CalTool.






End AggregatorClaims.

(** * Strings *)

Module StrFacts.

Lemma str_eqb_eq (a b : str) : str_eqb a b = true <-> a = b.
Proof.
  revert b. induction a as [|x a IH]; intros [|y b]; simpl;
    try (split; (reflexivity || discriminate)).
  rewrite andb_true_iff, Ascii.eqb_eq, IH.
  split; [intros [-> ->]; reflexivity | intros H; injection H; auto].
Qed.

(** *** lstrip, rstrip, strip *)

Lemma lstrip_all (p : ascii -> bool) (l : str) :
  forallb p l = true -> lstrip_with p l = [].
Proof.
  induction l as [|c t IH]; simpl; [reflexivity|].
  intros H. apply andb_true_iff in H as [-> H]. auto.
Qed.

Lemma lstrip_app_all (p : ascii -> bool) (a b : str) :
  forallb p a = true -> lstrip_with p (a ++ b) = lstrip_with p b.
Proof.
  induction a as [|c t IH]; simpl; [reflexivity|].
  intros H. apply andb_true_iff in H as [-> H]. auto.
Qed.

Lemma lstrip_first (p : ascii -> bool) (c : ascii) (t : str) :
  p c = false -> lstrip_with p (c :: t) = c :: t.
Proof. intros H. simpl. now rewrite H. Qed.

Lemma lstrip_split (p : ascii -> bool) (l : str) :
  exists a, l = a ++ lstrip_with p l /\ forallb p a = true.
Proof.
  induction l as [|c t (a & E & Ha)]; [exists []; auto|].
  simpl. destruct (p c) eqn:Hc.
  - exists (c :: a). simpl. rewrite Hc, Ha. split; [now f_equal | reflexivity].
  - exists []. auto.
Qed.

Lemma rstrip_all (p : ascii -> bool) (l : str) :
  forallb p l = true -> rstrip_with p l = [].
Proof.
  induction l as [|c t IH]; simpl; [reflexivity|].
  intros H. apply andb_true_iff in H as [-> H]. now rewrite IH.
Qed.

Lemma rstrip_app_all (p : ascii -> bool) (a b : str) :
  forallb p b = true -> rstrip_with p (a ++ b) = rstrip_with p a.
Proof.
  intros H. induction a as [|c t IH]; simpl; [now apply rstrip_all|].
  now rewrite IH.
Qed.

Lemma rstrip_last (p : ascii -> bool) (l : str) (c : ascii) :
  p c = false -> rstrip_with p (l ++ [c]) = l ++ [c].
Proof.
  intros H. induction l as [|d t IH]; simpl; [now rewrite H|].
  rewrite IH. destruct (t ++ [c]) eqn:E; [|reflexivity].
  now destruct t.
Qed.

Lemma rstrip_nil_all (p : ascii -> bool) (l : str) :
  rstrip_with p l = [] -> forallb p l = true.
Proof.
  induction l as [|c t IH]; simpl; [reflexivity|].
  destruct (rstrip_with p t); [|discriminate].
  destruct (p c); [auto | discriminate].
Qed.

Lemma strip_blank (l : str) : forallb isspace l = true -> strip l = [].
Proof. intros H. unfold strip. now rewrite lstrip_all. Qed.

Lemma strip_nil_blank (l : str) : strip l = [] -> forallb isspace l = true.
Proof.
  unfold strip. intros H. apply rstrip_nil_all in H.
  destruct (lstrip_split isspace l) as (a & E & Ha).
  rewrite E, forallb_app, Ha, H. reflexivity.
Qed.

(** A string that neither starts nor ends with a blank is its own strip. *)
Lemma strip_id (c d : ascii) (l : str) :
  isspace c = false -> isspace d = false ->
  strip (c :: l ++ [d]) = c :: l ++ [d].
Proof.
  intros Hc Hd. unfold strip. rewrite lstrip_first by exact Hc.
  rewrite app_comm_cons. now apply rstrip_last.
Qed.

Lemma strip_app_blank_r (l ws : str) :
  forallb isspace ws = true -> strip (l ++ ws) = strip l.
Proof.
  intros H. unfold strip.
  destruct (lstrip_split isspace l) as (a & E & Ha).
  rewrite E at 1. rewrite <- app_assoc, lstrip_app_all by exact Ha.
  destruct (lstrip_with isspace l) as [|c t] eqn:El.
  - simpl. rewrite lstrip_all by exact H. reflexivity.
  - assert (Hc : isspace c = false).
    { destruct l as [|x l']; [discriminate|].
      clear -El. induction (x :: l') as [|y u IH]; [discriminate|].
      simpl in El. destruct (isspace y) eqn:Ey; [auto|].
      injection El as -> _. exact Ey. }
    rewrite <- app_comm_cons, lstrip_first by exact Hc.
    rewrite app_comm_cons. now apply rstrip_app_all.
Qed.

Lemma strip_app_blank_l (ws l : str) :
  forallb isspace ws = true -> strip (ws ++ l) = strip l.
Proof. intros H. unfold strip. now rewrite lstrip_app_all. Qed.

(** *** split, find *)

Lemma split_nonempty (sep : ascii) (x : str) : split sep x <> [].
Proof.
  destruct x as [|c t]; simpl; [discriminate|].
  destruct (Ascii.eqb c sep); [discriminate|].
  destruct (split sep t); discriminate.
Qed.

Lemma split_lacks (sep : ascii) (x : str) :
  lacks sep x = true -> split sep x = [x].
Proof.
  induction x as [|c t IH]; simpl; [reflexivity|].
  intros H. apply andb_true_iff in H as [Hc H].
  apply negb_true_iff in Hc. rewrite Hc, IH by exact H. reflexivity.
Qed.

Lemma split_app (sep : ascii) (a b : str) :
  split sep (a ++ sep :: b) = split sep a ++ split sep b.
Proof.
  induction a as [|c t IH]; simpl.
  - now rewrite Ascii.eqb_refl.
  - destruct (Ascii.eqb c sep); [now rewrite IH|].
    rewrite IH. destruct (split sep t) eqn:E; [|reflexivity].
    now apply split_nonempty in E.
Qed.

Lemma split_cut (sep : ascii) (a b : str) :
  lacks sep a = true -> split sep (a ++ sep :: b) = a :: split sep b.
Proof. intros H. now rewrite split_app, split_lacks. Qed.

Lemma find_lacks (c : ascii) (x : str) : lacks c x = true -> find c x = -1.
Proof.
  induction x as [|d t IH]; simpl; [reflexivity|].
  intros H. apply andb_true_iff in H as [Hd H].
  apply negb_true_iff in Hd. rewrite Hd, IH by exact H. reflexivity.
Qed.

Lemma find_ge (c : ascii) (x : str) : -1 <= find c x.
Proof.
  induction x as [|d t IH]; simpl; [lia|].
  destruct (Ascii.eqb d c); [lia|].
  destruct (Z.ltb_spec (find c t) 0); lia.
Qed.

Lemma find_has (c : ascii) (a b : str) : 0 <= find c (a ++ c :: b).
Proof.
  induction a as [|d t IH]; simpl.
  - now rewrite Ascii.eqb_refl.
  - destruct (Ascii.eqb d c); [lia|].
    destruct (Z.ltb_spec (find c (t ++ c :: b)) 0); lia.
Qed.

Lemma lacks_app (c : ascii) (a b : str) :
  lacks c (a ++ b) = lacks c a && lacks c b.
Proof. apply forallb_app. Qed.

Lemma lacks_lstrip (p : ascii -> bool) (c : ascii) (x : str) :
  lacks c x = true -> lacks c (lstrip_with p x) = true.
Proof.
  induction x as [|d t IH]; simpl; [reflexivity|].
  intros H. destruct (p d); [|exact H].
  apply andb_true_iff in H as [_ H]. auto.
Qed.

(** *** Lines of a text file *)

Import BTSChannels.

Lemma file_lines_lacks (a : str) :
  lacks LF a = true -> a <> [] -> file_lines a = [a].
Proof.
  induction a as [|c t IH]; [congruence|]. intros H _.
  simpl in H. apply andb_true_iff in H as [Hc H].
  apply negb_true_iff in Hc. cbn [file_lines]. rewrite Hc.
  destruct t as [|d u]; [reflexivity|].
  rewrite IH; [reflexivity | exact H | discriminate].
Qed.

Lemma file_lines_cut (a b : str) :
  lacks LF a = true -> file_lines (a ++ LF :: b) = (a ++ [LF]) :: file_lines b.
Proof.
  induction a as [|c t IH]; intros H.
  - reflexivity.
  - simpl in H. apply andb_true_iff in H as [Hc H].
    apply negb_true_iff in Hc. cbn [file_lines app]. rewrite Hc.
    now rewrite IH.
Qed.

Lemma file_lines_first (text : str) :
  exists ws, hd [] (file_lines text) = first_line text ++ ws /\
             forallb isspace ws = true.
Proof.
  unfold first_line.
  induction text as [|c t (ws & E & Hws)]; [exists []; auto|].
  cbn [file_lines split]. fold LF.
  destruct (Ascii.eqb c LF) eqn:Ec.
  - apply Ascii.eqb_eq in Ec. subst c. exists [LF]. auto.
  - exists ws. split; [|exact Hws].
    destruct (split LF t) as [|h r] eqn:Es.
    + now apply split_nonempty in Es.
    + simpl in E. destruct (file_lines t) as [|h' r']; simpl in *.
      * destruct h; [|discriminate]. destruct ws; [|discriminate]. reflexivity.
      * now rewrite E.
Qed.

Lemma universal_newlines_id (raw : str) :
  lacks CR raw = true -> universal_newlines raw = raw.
Proof.
  induction raw as [|c t IH]; [reflexivity|].
  intros H. simpl in H. apply andb_true_iff in H as [Hc H].
  apply negb_true_iff in Hc. cbn [universal_newlines]. rewrite Hc.
  now rewrite IH.
Qed.

End StrFacts.

(** * Loading a channel file: the header *)

Section Header.
Import BTSChannels.

Lemma load_header_line (text : str) :
  strip (hd [] (file_lines text)) = strip (first_line text).
Proof.
  destruct (StrFacts.file_lines_first text) as (ws & -> & Hws).
  now apply StrFacts.strip_app_blank_r.
Qed.

(** C6 as it stands, refuted: a file whose first line is the header with
    a blank before it is loaded, records and all. *)
Lemma padded_header_accepted :
  ~ (forall raw : str, first_line raw <> HDR -> exists e, load raw = Raise e).
Proof.
  intros H. destruct (H padded_file) as [e E].
  - intros E. vm_compute in E. discriminate.
  - vm_compute in E. discriminate.
Qed.

(** C6, amended: [load] raises [ValueError], and so loads nothing,
    whenever the first line of the file, with the blanks around it
    stripped, is not the header string; when it is, the lines after it are
    parsed. *)
Theorem load_checks_header :
  (forall raw : str,
      strip (first_line (universal_newlines raw)) <> HDR ->
      load raw = Raise ValueError) /\
  (forall raw : str,
      strip (first_line (universal_newlines raw)) = HDR ->
      load raw = parse_rows (tl (file_lines (universal_newlines raw)))).
Proof.
  split; intros raw H; unfold load; rewrite load_header_line.
  - destruct (str_eqb _ HDR) eqn:E; [|reflexivity].
    apply StrFacts.str_eqb_eq in E. contradiction.
  - rewrite H. now rewrite (proj2 (StrFacts.str_eqb_eq HDR HDR) eq_refl).
Qed.

Lemma load_checks_header_witness :
  load alien_file = Raise ValueError /\
  load padded_file = parse_rows (tl (file_lines (universal_newlines padded_file))).
Proof.
  split.
  - apply (proj1 load_checks_header alien_file).
    intros E. vm_compute in E. discriminate.
  - apply (proj2 load_checks_header padded_file).
    vm_compute. reflexivity.
Defined.

End Header.

(** * Scanning: blank lines *)

Section BlankLines.
Import CalTool.

Lemma parse_lines_skip (band : str) (ws : str) (lines1 lines2 : list str) :
  forallb isspace ws = true ->
  forall acc : list chrec,
    parse_lines band (lines1 ++ ws :: lines2) acc =
    parse_lines band (lines1 ++ lines2) acc.
Proof.
  intros Hws. induction lines1 as [|l rest IH]; intros acc.
  - cbn [app parse_lines]. now rewrite StrFacts.strip_blank.
  - cbn [app parse_lines].
    destruct (strip l); [apply IH|].
    destruct (parse_line band (a :: s)); cbn [bind]; [apply IH | reflexivity].
Qed.

Lemma parse_lines_raise (band : str) (lines : list str) :
  forall (acc : list chrec) (e : exn),
    parse_lines band lines acc = Raise e ->
    exists line, In line lines /\ strip line <> [] /\
                 parse_line band (strip line) = Raise e.
Proof.
  induction lines as [|l rest IH]; intros acc e H; [discriminate|].
  cbn [parse_lines] in H.
  destruct (strip l) as [|c t] eqn:El.
  - destruct (IH _ _ H) as (line & Hin & Hne & Hp).
    exists line. split; [now right | auto].
  - destruct (parse_line band (c :: t)) as [r|e'] eqn:Ep; cbn [bind] in H.
    + destruct (IH _ _ H) as (line & Hin & Hne & Hp).
      exists line. split; [now right | auto].
    + injection H as <-. exists l. rewrite El.
      split; [now left|]. split; [discriminate | exact Ep].
Qed.

(** C10: a line of blanks only, anywhere after the first line, changes
    nothing: no record, no error.  When the parsing raises, some line after
    the first is not blank and is the one [parse_line] raises on; the only
    other failure of [listChannels] on the tool's output is the decoding. *)
Theorem blank_lines_are_skipped :
  (forall (band ws : str) (lines1 lines2 : list str) (acc : list chrec),
      forallb isspace ws = true ->
      parse_lines band (lines1 ++ ws :: lines2) acc =
      parse_lines band (lines1 ++ lines2) acc) /\
  (forall (band : str) (lines : list str) (acc : list chrec) (e : exn),
      parse_lines band lines acc = Raise e ->
      exists line, In line lines /\ strip line <> [] /\
                   parse_line band (strip line) = Raise e) /\
  (forall (raw band : str) (e : exn),
      listChannels (Ok raw) band = Raise e ->
      e = UnicodeDecodeError \/
      exists line, In line (tl (split (ascii_of_N 10) raw)) /\
                   strip line <> [] /\
                   parse_line band (strip line) = Raise e).
Proof.
  split; [|split].
  - intros. now apply parse_lines_skip.
  - intros. eapply parse_lines_raise; eauto.
  - intros raw band e H. unfold listChannels, decode_ascii in H.
    cbn [bind] in H.
    destruct (forallb _ raw); cbn [bind] in H.
    + right. eapply parse_lines_raise; eauto.
    + left. now injection H.
Qed.

End BlankLines.

(** * Digits *)

Module DigitFacts.
Import StrFacts.

Lemma digit_inv (d : ascii) :
  isdigit d = true -> In d (lit "0123456789").
Proof.
  destruct d as [[] [] [] [] [] [] [] []]; intros H;
    try discriminate H; simpl; tauto.
Qed.

Lemma digit_free_at (p : ascii -> bool) (d : ascii) :
  digit_free p -> isdigit d = true -> p d = false.
Proof.
  intros Hp Hd. apply digit_inv in Hd.
  unfold digit_free in Hp. rewrite forallb_forall in Hp.
  apply negb_true_iff. now apply Hp.
Qed.

Lemma digits_inv (ds : str) :
  digits ds = true -> ds <> [] /\ forallb isdigit ds = true.
Proof. destruct ds; [discriminate|]. intros H. split; [discriminate | exact H]. Qed.

Lemma digits_forallb (p : ascii -> bool) (ds : str) :
  digit_free p -> forallb isdigit ds = true ->
  forallb (fun d => negb (p d)) ds = true.
Proof.
  intros Hp H. rewrite forallb_forall in *. intros d Hd.
  apply negb_true_iff, digit_free_at; auto.
Qed.

Lemma digits_lacks (c : ascii) (ds : str) :
  isdigit c = false -> forallb isdigit ds = true -> lacks c ds = true.
Proof.
  intros Hc H. unfold lacks. rewrite forallb_forall in *. intros d Hd.
  apply negb_true_iff. destruct (Ascii.eqb_spec d c) as [->|]; [|reflexivity].
  rewrite (H c Hd) in Hc. discriminate.
Qed.

Lemma last_ok_app (p : ascii -> bool) (a b : str) :
  last_ok p b = true -> last_ok p (a ++ b) = true.
Proof.
  intros H. induction a as [|c t IH]; [exact H|].
  cbn [app last_ok]. destruct (t ++ b) eqn:E; [|exact IH].
  destruct t; [|discriminate]. simpl in E. subst b. discriminate.
Qed.

Lemma last_ok_digits (p : ascii -> bool) (ds : str) :
  digit_free p -> digits ds = true -> last_ok p ds = true.
Proof.
  intros Hp H. apply digits_inv in H as [Hne H].
  induction ds as [|c t IH]; [congruence|].
  simpl in H. apply andb_true_iff in H as [Hc H].
  cbn [last_ok]. destruct t as [|d u].
  - apply negb_true_iff. now apply digit_free_at.
  - apply IH; [discriminate | exact H].
Qed.

Lemma rstrip_last_ok (p : ascii -> bool) (x : str) :
  last_ok p x = true -> rstrip_with p x = x.
Proof.
  induction x as [|c t IH]; [discriminate|].
  cbn [last_ok rstrip_with]. destruct t as [|d u].
  - intros H. apply negb_true_iff in H. simpl. now rewrite H.
  - intros H. now rewrite IH.
Qed.

Lemma lstrip_digits (p : ascii -> bool) (ds x : str) :
  digit_free p -> digits ds = true -> lstrip_with p (ds ++ x) = ds ++ x.
Proof.
  intros Hp H. destruct ds as [|c t]; [discriminate|].
  simpl in H. apply andb_true_iff in H as [Hc _].
  cbn [app]. apply lstrip_first. now apply digit_free_at.
Qed.

Lemma lstrip_stop (p : ascii -> bool) (a : str) (c : ascii) (r : str) :
  p c = false ->
  lstrip_with p (a ++ c :: r) = lstrip_with p a ++ c :: r.
Proof.
  intros Hc. induction a as [|x t IH]; simpl; [now rewrite Hc|].
  destruct (p x); [exact IH | reflexivity].
Qed.

(** *** Digits and the numbers they spell *)

Lemma digits_val_acc_app (a b : str) :
  forall acc : N,
    digits_val_acc acc (a ++ b) =
    match digits_val_acc acc a with
    | Some v => digits_val_acc v b
    | None => None
    end.
Proof.
  induction a as [|c t IH]; intros acc; simpl; [reflexivity|].
  destruct (isdigit c); [apply IH | reflexivity].
Qed.

Lemma digits_val_some (ds : str) :
  forallb isdigit ds = true ->
  forall acc : N, exists n, digits_val_acc acc ds = Some n.
Proof.
  induction ds as [|c t IH]; intros H acc; simpl; [eauto|].
  simpl in H. apply andb_true_iff in H as [-> H]. apply IH, H.
Qed.

Lemma digits_val_num_of (ds : str) :
  digits ds = true -> digits_val ds = Some (num_of ds).
Proof.
  intros H. apply digits_inv in H as [Hne H].
  unfold num_of. destruct ds as [|c t]; [congruence|].
  unfold digits_val.
  destruct (digits_val_some (c :: t) H 0%N) as [n ->]. reflexivity.
Qed.

Lemma digits_app (a b : str) :
  digits a = true -> forallb isdigit b = true -> digits (a ++ b) = true.
Proof.
  intros Ha Hb. apply digits_inv in Ha as [Hne Ha].
  destruct a as [|c t]; [congruence|].
  cbn [app digits]. rewrite app_comm_cons, forallb_app, Ha, Hb. reflexivity.
Qed.

(** *** Reading numbers *)

Lemma space_digit_free : digit_free isspace.
Proof. reflexivity. Qed.

Lemma strip_digits_around (a m b : str) :
  digits a = true -> digits b = true -> strip (a ++ m ++ b) = a ++ m ++ b.
Proof.
  intros Ha Hb. unfold strip.
  rewrite lstrip_digits by (exact space_digit_free || exact Ha).
  apply rstrip_last_ok. do 2 apply last_ok_app.
  apply last_ok_digits; [exact space_digit_free | exact Hb].
Qed.

Lemma strip_digits (ds : str) : digits ds = true -> strip ds = ds.
Proof.
  intros H. unfold strip.
  rewrite <- (app_nil_r ds) at 1.
  rewrite lstrip_digits by (exact space_digit_free || exact H).
  rewrite app_nil_r. apply rstrip_last_ok.
  apply last_ok_digits; [exact space_digit_free | exact H].
Qed.

Lemma split_sign_digit (c : ascii) (t : str) :
  isdigit c = true -> split_sign (c :: t) = (false, c :: t).
Proof.
  intros H. apply digit_inv in H. simpl in H.
  repeat (destruct H as [<-|H]; [reflexivity|]). contradiction.
Qed.

Lemma split_sign_digits (ds x : str) :
  digits ds = true -> split_sign (ds ++ x) = (false, ds ++ x).
Proof.
  intros H. destruct ds as [|c t]; [discriminate|].
  simpl in H. apply andb_true_iff in H as [Hc _].
  now apply split_sign_digit.
Qed.

Lemma float_body (neg : bool) (ip fp : str) :
  digits ip = true -> digits fp = true ->
  match split "." (ip ++ lit "." ++ fp) with
  | [ip] =>
      match digits_val ip with
      | Some n => Ok (if neg then - (Z.of_N n # 1) else (Z.of_N n # 1))%Q
      | None => Raise ValueError
      end
  | [ip; fp] =>
      match digits_val (ip ++ fp) with
      | Some n => Ok (if neg then - (Z.of_N n # pow10 (length fp))
                      else (Z.of_N n # pow10 (length fp)))%Q
      | None => Raise ValueError
      end
  | _ => Raise ValueError
  end = Ok (if neg then - decimal ip fp else decimal ip fp)%Q.
Proof.
  intros Hi Hf.
  pose proof (digits_inv _ Hi) as [_ Hi'].
  pose proof (digits_inv _ Hf) as [_ Hf'].
  change (ip ++ lit "." ++ fp) with (ip ++ "." :: fp).
  rewrite split_cut by (now apply digits_lacks).
  rewrite split_lacks by (now apply digits_lacks).
  rewrite digits_val_num_of by (now apply digits_app).
  reflexivity.
Qed.

Lemma py_float_decimal (ip fp : str) :
  digits ip = true -> digits fp = true ->
  py_float (ip ++ lit "." ++ fp) = Ok (decimal ip fp).
Proof.
  intros Hi Hf. unfold py_float.
  rewrite strip_digits_around by assumption.
  rewrite split_sign_digits by assumption.
  now apply (float_body false).
Qed.

Lemma py_float_minus_decimal (ip fp : str) :
  digits ip = true -> digits fp = true ->
  py_float ("-" :: ip ++ lit "." ++ fp) = Ok (- decimal ip fp)%Q.
Proof.
  intros Hi Hf. unfold py_float.
  replace (strip ("-" :: ip ++ lit "." ++ fp)) with ("-" :: ip ++ lit "." ++ fp).
  - cbn [split_sign]. now apply (float_body true).
  - symmetry. unfold strip. rewrite lstrip_first by reflexivity.
    apply rstrip_last_ok.
    change ("-" :: ip ++ lit "." ++ fp) with (["-"] ++ ip ++ lit "." ++ fp).
    do 3 apply last_ok_app.
    apply last_ok_digits; [exact space_digit_free | exact Hf].
Qed.

Lemma py_int_digits (n ws : str) :
  digits n = true -> forallb isspace ws = true ->
  py_int (n ++ ws) = Ok (Z.of_N (num_of n)).
Proof.
  intros Hn Hws. unfold py_int.
  rewrite strip_app_blank_r by exact Hws.
  rewrite strip_digits by exact Hn.
  rewrite <- (app_nil_r n) at 1.
  rewrite split_sign_digits by exact Hn. rewrite app_nil_r.
  now rewrite digits_val_num_of.
Qed.

End DigitFacts.

(** * Scanning: a data line *)

Module LineFacts.
Import StrFacts DigitFacts CalTool.

Ltac app_norm :=
  unfold lit; cbn [list_ascii_of_string]; rewrite <- ?app_assoc; cbn [app].

Ltac digit_side :=
  match goal with
  | |- digit_free _ => reflexivity
  | |- isdigit _ = false => reflexivity
  | H : digits ?d = true |- forallb isdigit ?d = true => exact (proj2 (digits_inv d H))
  | |- _ => assumption
  end.

(* lacks c on a concatenation of literals and digit runs *)
Ltac lacks_tac :=
  repeat (rewrite lacks_app; apply andb_true_iff; split);
  first [ reflexivity
        | assumption
        | apply digits_lacks; digit_side
        | match goal with |- lacks _ [sign_char ?b] = true => destruct b; reflexivity end ].

Section Line.
Variables (band label n fi ff : str) (neg : bool) (di df pi pf : str).
Hypothesis Hlabel : lacks ":" label = true.
Hypothesis Hn : digits n = true.
Hypothesis Hfi : digits fi = true.
Hypothesis Hff : digits ff = true.
Hypothesis Hdi : digits di = true.
Hypothesis Hdf : digits df = true.
Hypothesis Hpi : digits pi = true.
Hypothesis Hpf : digits pf = true.

Let F := fi ++ lit "." ++ ff.
Let D := di ++ lit "." ++ df.
Let P := pi ++ lit "." ++ pf.
Let X := F ++ lit "MHz" ++ [sign_char neg] ++ D ++ lit "kHz) power".
Let MID := lit " " ++ n ++ lit " (" ++ X.
Let TAIL := lit " " ++ P.

Lemma line_shape :
  strip (data_line label n fi ff neg di df pi pf) =
  lstrip_with isspace label ++ ":" :: MID ++ ":" :: TAIL.
Proof.
  unfold strip.
  replace (data_line label n fi ff neg di df pi pf)
    with (label ++ ":" :: MID ++ ":" :: TAIL).
  2:{ unfold data_line, MID, TAIL, X, F, D, P. app_norm. reflexivity. }
  rewrite lstrip_stop by reflexivity.
  apply rstrip_last_ok.
  apply last_ok_app.
  change (":" :: MID ++ ":" :: TAIL) with ([":"] ++ MID ++ [":"] ++ TAIL).
  unfold TAIL, P.
  repeat apply last_ok_app.
  apply last_ok_digits; digit_side.
Qed.

Lemma line_fields :
  split ":" (strip (data_line label n fi ff neg di df pi pf)) =
  [lstrip_with isspace label; MID; TAIL].
Proof.
  rewrite line_shape.
  rewrite split_cut by (now apply lacks_lstrip).
  rewrite split_cut.
  2:{ unfold MID, X, F, D. lacks_tac. }
  rewrite split_lacks; [reflexivity|].
  unfold TAIL, P. lacks_tac.
Qed.

Lemma mid_fields :
  split "(" (strip MID) = [n ++ lit " "; X].
Proof.
  unfold MID. rewrite strip_app_blank_l by reflexivity.
  unfold strip. rewrite lstrip_digits by digit_side.
  rewrite rstrip_last_ok.
  2:{ unfold X. repeat apply last_ok_app. reflexivity. }
  replace (n ++ lit " (" ++ X) with ((n ++ lit " ") ++ "(" :: X)
    by (app_norm; reflexivity).
  rewrite split_cut by lacks_tac.
  rewrite split_lacks; [reflexivity|].
  unfold X, F, D. lacks_tac.
Qed.

Lemma strip_X : strip X = X.
Proof.
  unfold strip, X, F. rewrite <- !app_assoc.
  rewrite lstrip_digits by digit_side.
  apply rstrip_last_ok. repeat apply last_ok_app. reflexivity.
Qed.

Lemma X_plus :
  neg = false ->
  (0 <=? find "+" X) = true /\
  split "+" X = [F ++ lit "MHz"; D ++ lit "kHz) power"].
Proof.
  intros ->.
  replace X with ((F ++ lit "MHz") ++ "+" :: D ++ lit "kHz) power")
    by (unfold X; app_norm; reflexivity).
  split.
  - apply Z.leb_le, find_has.
  - rewrite split_cut by (unfold F; lacks_tac).
    rewrite split_lacks; [reflexivity|]. unfold D. lacks_tac.
Qed.

Lemma X_minus :
  neg = true ->
  (0 <=? find "+" X) = false /\
  split "-" X = [F ++ lit "MHz"; D ++ lit "kHz) power"].
Proof.
  intros ->. split.
  - rewrite find_lacks; [reflexivity|]. unfold X, F, D. lacks_tac.
  - replace X with ((F ++ lit "MHz") ++ "-" :: D ++ lit "kHz) power")
      by (unfold X; app_norm; reflexivity).
    rewrite split_cut by (unfold F; lacks_tac).
    rewrite split_lacks; [reflexivity|]. unfold D. lacks_tac.
Qed.

Lemma freq_text : rstrip (lit "MHz") (strip (F ++ lit "MHz")) = F.
Proof.
  unfold strip, F. rewrite <- !app_assoc.
  rewrite lstrip_digits by digit_side.
  rewrite rstrip_last_ok by (repeat apply last_ok_app; reflexivity).
  unfold rstrip. rewrite !app_assoc.
  rewrite rstrip_app_all by reflexivity.
  apply rstrip_last_ok. repeat apply last_ok_app.
  apply last_ok_digits; digit_side.
Qed.

(** [sg] is the sign the code has put in front: nothing or a minus *)
Lemma freq_err_text (sg : str) :
  sg = [] \/ sg = ["-"] ->
  rstrip (lit "kHz)")
    (strip (rstrip (lit "power") (strip (sg ++ D ++ lit "kHz) power")))) =
  sg ++ D.
Proof.
  intros Hsg.
  assert (Hl : forall x, lstrip_with isspace (sg ++ D ++ x) = sg ++ D ++ x).
  { intros x. destruct Hsg as [->| ->].
    - unfold D. cbn [app]. rewrite <- !app_assoc.
      apply lstrip_digits; digit_side.
    - apply lstrip_first. reflexivity. }
  unfold strip at 2. rewrite Hl.
  rewrite (rstrip_last_ok isspace)
    by (repeat apply last_ok_app; reflexivity).
  unfold rstrip.
  replace (sg ++ D ++ lit "kHz) power")
    with ((sg ++ D ++ lit "kHz) ") ++ lit "power")
    by (app_norm; reflexivity).
  rewrite (rstrip_app_all (mem (lit "power"))) by reflexivity.
  rewrite (rstrip_last_ok (mem (lit "power")))
    by (repeat apply last_ok_app; reflexivity).
  replace (sg ++ D ++ lit "kHz) ") with ((sg ++ D ++ lit "kHz)") ++ lit " ")
    by (app_norm; reflexivity).
  rewrite strip_app_blank_r by reflexivity.
  unfold strip. rewrite Hl.
  rewrite (rstrip_last_ok isspace)
    by (repeat apply last_ok_app; reflexivity).
  rewrite app_assoc. rewrite rstrip_app_all by reflexivity.
  apply rstrip_last_ok. unfold D. repeat apply last_ok_app.
  apply last_ok_digits; digit_side.
Qed.

Lemma strip_rest : strip (D ++ lit "kHz) power") = D ++ lit "kHz) power".
Proof.
  unfold strip, D. rewrite <- !app_assoc.
  rewrite lstrip_digits by digit_side.
  apply rstrip_last_ok. repeat apply last_ok_app. reflexivity.
Qed.

Lemma power_text : strip TAIL = P.
Proof.
  unfold TAIL. rewrite strip_app_blank_l by reflexivity.
  unfold P. now apply strip_digits_around.
Qed.

Lemma parse_data_line :
  parse_line band (strip (data_line label n fi ff neg di df pi pf)) =
  Ok (mkCh band (Z.of_N (num_of n)) (decimal fi ff)
        (if neg then - decimal di df else decimal di df)%Q
        (decimal pi pf)).
Proof.
  unfold parse_line. rewrite line_fields, mid_fields.
  rewrite py_int_digits by (assumption || reflexivity).
  cbn [bind]. rewrite strip_X.
  destruct (bool_dec neg true) as [En|En].
  - destruct (X_minus En) as [-> ->]. cbn [bind fst snd].
    rewrite freq_text. fold F. unfold F at 1.
    rewrite py_float_decimal by assumption. cbn [bind].
    rewrite strip_rest.
    change ("-" :: D ++ lit "kHz) power") with (["-"] ++ D ++ lit "kHz) power").
    rewrite (freq_err_text ["-"]) by (now right).
    cbn [app]. unfold D at 1.
    rewrite py_float_minus_decimal by assumption. cbn [bind].
    rewrite power_text. unfold P.
    rewrite py_float_decimal by assumption. now rewrite En.
  - apply not_true_is_false in En.
    destruct (X_plus En) as [-> ->]. cbn [bind fst snd].
    rewrite freq_text. unfold F at 1.
    rewrite py_float_decimal by assumption. cbn [bind].
    change (D ++ lit "kHz) power") with ([] ++ D ++ lit "kHz) power").
    rewrite (freq_err_text []) by (now left).
    cbn [app]. unfold D at 1.
    rewrite py_float_decimal by assumption. cbn [bind].
    rewrite power_text. unfold P.
    rewrite py_float_decimal by assumption. now rewrite En.
Qed.
End Line.

End LineFacts.

Section ScanClaims.
Import CalTool.

Lemma decimal_nonneg (ip fp : str) : (0 <= decimal ip fp)%Q.
Proof. unfold decimal, Qle. simpl. lia. Qed.

Lemma decimal_pos (ip fp : str) :
  num_of (ip ++ fp) <> 0%N -> (0 < decimal ip fp)%Q.
Proof. unfold decimal, Qlt. simpl. lia. Qed.

(** C8 as it stands, refuted: a line spelt [X: N (f.ffMHz+d.ddkHz power): p.pp]
    is not parsed; what is left of the deviation after the trailing
    characters are stripped is [0.02kHz power], which [float] rejects. *)
Lemma spec_line_rejected :
  ~ (forall (band label n fi ff : str) (neg : bool) (di df pi pf : str),
        lacks ":" label = true ->
        digits n = true -> digits fi = true -> digits ff = true ->
        digits di = true -> digits df = true ->
        digits pi = true -> digits pf = true ->
        exists c,
          parse_line band (strip (spec_line label n fi ff neg di df pi pf))
          = Ok c).
Proof.
  intros H.
  destruct (H (lit "GSM900") (lit "chan") (lit "5") (lit "935") (lit "20")
              false (lit "0") (lit "02") (lit "12") (lit "50"))
    as [c E]; try reflexivity.
  vm_compute in E. discriminate.
Qed.

(** C8, amended: the first line of the output is dropped whatever it is;
    and every later line [X: N (f.ffMHz<sign>d.ddkHz) power: p.pp], with the
    closing bracket before [power], gives the record
    [(band, N, f.ff, d.dd or -d.dd, p.pp)]: the deviation is the value
    [d.dd], negated when the sign is [-] and as it is when the sign is [+],
    so that, the value not being zero, it is negative exactly when the
    sign is [-]. *)
Theorem scan_line_parsed :
  (forall (first rest band : str),
      lacks (ascii_of_N 10) first = true ->
      listChannels (Ok (first ++ ascii_of_N 10 :: rest)) band =
      (_ <- decode_ascii (first ++ ascii_of_N 10 :: rest) ;;
       parse_lines band (split (ascii_of_N 10) rest) [])) /\
  (forall (band label n fi ff : str) (neg : bool) (di df pi pf : str),
      lacks ":" label = true ->
      digits n = true -> digits fi = true -> digits ff = true ->
      digits di = true -> digits df = true ->
      digits pi = true -> digits pf = true ->
      let c := mkCh band (Z.of_N (num_of n)) (decimal fi ff)
                 (if neg then - decimal di df else decimal di df)%Q
                 (decimal pi pf) in
      parse_line band (strip (data_line label n fi ff neg di df pi pf)) = Ok c /\
      (forall (rest : list str) (acc : list chrec),
          parse_lines band (data_line label n fi ff neg di df pi pf :: rest) acc
          = parse_lines band rest (acc ++ [c])) /\
      (neg = true -> freq_err c <= 0)%Q /\
      (neg = false -> 0 <= freq_err c)%Q /\
      (num_of (di ++ df) <> 0%N -> (freq_err c < 0)%Q <-> neg = true)).
Proof.
  split.
  - intros first rest band Hf. unfold listChannels. cbn [bind].
    destruct (decode_ascii (first ++ ascii_of_N 10 :: rest)) as [x|e] eqn:E;
      cbn [bind]; [|reflexivity].
    unfold decode_ascii in E.
    destruct (forallb _ _); [|discriminate]. injection E as <-.
    now rewrite StrFacts.split_cut.
  - intros band label n fi ff neg di df pi pf Hl Hn Hfi Hff Hdi Hdf Hpi Hpf c.
    pose proof (LineFacts.parse_data_line band label n fi ff neg di df pi pf
                  Hl Hn Hfi Hff Hdi Hdf Hpi Hpf) as Hp.
    fold c in Hp.
    split; [exact Hp|]. split.
    { intros rest acc. cbn [parse_lines].
      destruct (strip (data_line label n fi ff neg di df pi pf)) as [|x t] eqn:E.
      - rewrite (LineFacts.line_shape label n fi ff neg di df pi pf Hpf) in E.
        now destruct (lstrip_with isspace label).
      - now rewrite Hp. }
    pose proof (decimal_nonneg di df) as H0.
    split; [intros ->; simpl; lra|].
    split; [intros ->; simpl; lra|].
    intros Hnz. pose proof (decimal_pos di df Hnz) as H1.
    destruct neg; simpl; split; intros H; (reflexivity || discriminate || lra).
Qed.

Lemma scan_line_parsed_witness :
  listChannels (Ok scan_output) (lit "GSM900") =
  Ok [mkCh (lit "GSM900") 14 (9378 # 10) (- (1234 # 1000)) (2345678 # 100);
      mkCh (lit "GSM900") 5 (93520 # 100) (2 # 100) (1250 # 100)] /\
  parse_line (lit "GSM900")
    (strip (data_line (lit "    chan") (lit "14") (lit "937") (lit "8") true
              (lit "1") (lit "234") (lit "23456") (lit "78"))) =
  Ok (mkCh (lit "GSM900") 14 (9378 # 10) (- (1234 # 1000)) (2345678 # 100)).
Proof.
  split.
  - etransitivity;
      [exact (proj1 scan_line_parsed banner scan_rest (lit "GSM900") eq_refl)|].
    vm_compute. reflexivity.
  - apply (proj2 scan_line_parsed (lit "GSM900") (lit "    chan") (lit "14")
             (lit "937") (lit "8") true (lit "1") (lit "234") (lit "23456")
             (lit "78")); reflexivity.
Defined.

Lemma blank_lines_are_skipped_witness :
  parse_lines (lit "GSM900")
    ([lit "chan: 5 (935.20MHz+0.02kHz) power: 12.50"] ++ lit "   " :: [[]]) []
  = Ok [mkCh (lit "GSM900") 5 (93520 # 100) (2 # 100) (1250 # 100)] /\
  (exists line,
      In line [lit "  "; lit "chan: 5 (935.20MHz+0.02kHz power): 12.50"] /\
      strip line <> [] /\
      parse_line (lit "GSM900") (strip line) = Raise ValueError) /\
  (exists line,
      In line (tl (split (ascii_of_N 10) spec_output)) /\ strip line <> [] /\
      parse_line (lit "GSM900") (strip line) = Raise ValueError).
Proof.
  destruct blank_lines_are_skipped as (Hskip & Hlines & Hraise).
  split; [|split].
  - rewrite Hskip by reflexivity. vm_compute. reflexivity.
  - apply (Hlines (lit "GSM900")
             [lit "  "; lit "chan: 5 (935.20MHz+0.02kHz power): 12.50"] []).
    vm_compute. reflexivity.
  - destruct (Hraise spec_output (lit "GSM900") ValueError) as [H|H].
    + vm_compute. reflexivity.
    + discriminate H.
    + exact H.
Defined.

End ScanClaims.

(** * Numbers and their decimal spellings *)

Module NumFacts.
Import StrFacts DigitFacts.

Lemma pos_size_bound (p : positive) :
  (Npos p < 2 ^ N.of_nat (Pos.size_nat p))%N.
Proof.
  induction p as [p IH|p IH|]; cbn [Pos.size_nat];
    rewrite ?Nat2N.inj_succ, ?N.pow_succ_r'; lia.
Qed.

Lemma size_bound (n : N) : (n < 10 ^ N.of_nat (S (N.size_nat n)))%N.
Proof.
  rewrite Nat2N.inj_succ, N.pow_succ_r'.
  assert (H : (n < 2 ^ N.of_nat (N.size_nat n))%N).
  { destruct n as [|p]; [reflexivity | apply pos_size_bound]. }
  assert (H2 : (2 ^ N.of_nat (N.size_nat n) <= 10 ^ N.of_nat (N.size_nat n))%N)
    by (apply N.pow_le_mono_l; lia).
  lia.
Qed.

Lemma digit_char_ok (d : N) :
  (d < 10)%N ->
  isdigit (digit_char d) = true /\ (N_of_ascii (digit_char d) - 48 = d)%N.
Proof.
  intros H. unfold isdigit, digit_char.
  rewrite N_ascii_embedding by lia. split; [|lia].
  apply andb_true_iff. split; apply N.leb_le; lia.
Qed.

Lemma digits_val_acc_one (acc d : N) :
  (d < 10)%N -> digits_val_acc acc [digit_char d] = Some (10 * acc + d)%N.
Proof.
  intros H. destruct (digit_char_ok d H) as [H1 H2].
  cbn [digits_val_acc]. now rewrite H1, H2.
Qed.

Lemma to_digits_val (fuel : nat) : forall n acc : N,
  (n < 10 ^ N.of_nat (S fuel))%N ->
  digits_val_acc acc (to_digits fuel n) =
  Some (acc * 10 ^ N.of_nat (length (to_digits fuel n)) + n)%N.
Proof.
  induction fuel as [|f IH]; intros n acc Hn.
  - change (10 ^ N.of_nat 1)%N with 10%N in Hn.
    cbn [to_digits]. rewrite N.mod_small by exact Hn.
    rewrite digits_val_acc_one by exact Hn. cbn [length].
    f_equal. change (10 ^ N.of_nat 1)%N with 10%N. lia.
  - cbn [to_digits]. destruct (N.ltb_spec n 10) as [Hlt|Hge].
    + rewrite digits_val_acc_one by exact Hlt. cbn [length].
      f_equal. change (10 ^ N.of_nat 1)%N with 10%N. lia.
    + rewrite digits_val_acc_app.
      rewrite Nat2N.inj_succ, N.pow_succ_r' in Hn.
      rewrite IH by (apply N.Div0.div_lt_upper_bound; exact Hn).
      rewrite digits_val_acc_one by (apply N.mod_lt; lia).
      rewrite length_app. cbn [length]. rewrite Nat.add_1_r.
      rewrite Nat2N.inj_succ, N.pow_succ_r'.
      f_equal. pose proof (N.div_mod n 10 ltac:(lia)). nia.
Qed.

Lemma to_digits_digits (fuel : nat) : forall n : N,
  digits (to_digits fuel n) = true.
Proof.
  assert (Hd : forall d, (d < 10)%N -> digits [digit_char d] = true).
  { intros d H. cbn [digits forallb]. now rewrite (proj1 (digit_char_ok d H)). }
  induction fuel as [|f IH]; intros n; cbn [to_digits].
  - apply Hd, N.mod_lt. lia.
  - destruct (N.ltb_spec n 10); [now apply Hd|].
    apply digits_app; [apply IH|].
    cbn [forallb]. rewrite (proj1 (digit_char_ok (n mod 10) ltac:(apply N.mod_lt; lia))).
    reflexivity.
Qed.

Lemma N_digits_digits (n : N) : digits (N_digits n) = true.
Proof. apply to_digits_digits. Qed.

Lemma N_digits_val (n : N) : forall acc,
  digits_val_acc acc (N_digits n) =
  Some (acc * 10 ^ N.of_nat (length (N_digits n)) + n)%N.
Proof. intros acc. apply to_digits_val, size_bound. Qed.

Lemma num_of_N_digits (n : N) : num_of (N_digits n) = n.
Proof.
  unfold num_of, digits_val.
  pose proof (N_digits_digits n) as Hd.
  destruct (N_digits n) eqn:E; [discriminate|].
  rewrite <- E, N_digits_val. lia.
Qed.

Lemma zeros_val (k : nat) (ds : str) (acc : N) :
  digits_val_acc 0 (repeat "0" k ++ ds) = digits_val_acc 0 ds.
Proof. induction k as [|k IH]; [reflexivity | exact IH]. Qed.

Lemma zeros_digit (k : nat) : forallb isdigit (repeat "0" k) = true.
Proof. induction k as [|k IH]; [reflexivity | exact IH]. Qed.

Lemma num_of_padded (k : nat) (n : N) :
  num_of (repeat "0" k ++ N_digits n) = n /\
  forallb isdigit (repeat "0" k ++ N_digits n) = true.
Proof.
  pose proof (N_digits_digits n) as Hd. apply digits_inv in Hd as [Hne Hd].
  split.
  - unfold num_of, digits_val.
    destruct (repeat "0" k ++ N_digits n) eqn:E.
    + apply app_eq_nil in E as [_ E]. contradiction.
    + rewrite <- E, (zeros_val k _ 0%N), N_digits_val. lia.
  - now rewrite forallb_app, zeros_digit, Hd.
Qed.

(** *** Rounding to a number of decimals *)
Lemma round_half_even_close (q : Q) :
  (0 <= q)%Q ->
  (Qabs (inject_Z (Z.of_N (round_half_even q)) - q) <= 1 # 2)%Q.
Proof.
  destruct q as [n d]. intros Hn.
  assert (Hn' : 0 <= n) by (unfold Qle in Hn; cbn [Qnum Qden] in Hn; lia).
  clear Hn.
  unfold round_half_even. cbn [Qnum Qden].
  pose proof (Z.div_mod n (Zpos d) ltac:(lia)) as Hdm.
  pose proof (Z.mod_pos_bound n (Zpos d) ltac:(lia)) as Hr.
  assert (Hfl : 0 <= n / Zpos d) by (apply Z.div_pos; lia).
  set (fl := n / Zpos d) in *. set (r := n mod Zpos d) in *.
  apply Qabs_Qle_condition.
  destruct (Z.compare_spec (2 * r) (Zpos d)) as [E|E|E];
    [destruct (Z.even fl)| |];
    rewrite Z2N.id by lia;
    unfold Qle, Qminus, Qplus, Qopp, inject_Z; cbn [Qnum Qden];
    split; nia.
Qed.

Lemma py_float_blank_r (x ws : str) :
  forallb isspace ws = true -> py_float (x ++ ws) = py_float x.
Proof. intros H. unfold py_float. now rewrite strip_app_blank_r. Qed.

Lemma forallb_firstn_skipn {A : Type} (p : A -> bool) (k : nat) (l : list A) :
  forallb p l = true ->
  forallb p (firstn k l) = true /\ forallb p (skipn k l) = true.
Proof.
  intros H. rewrite <- (firstn_skipn k l), forallb_app in H.
  now apply andb_true_iff in H.
Qed.

Lemma format_f_shape (prec : nat) (q : Q) :
  exists ip fp,
    format_f prec q = (if Qltb q 0 then ["-"] else []) ++ ip ++ lit "." ++ fp /\
    digits ip = true /\ forallb isdigit fp = true /\ length fp = prec /\
    num_of (ip ++ fp) = round_half_even (Qabs q * (Zpos (pow10 prec) # 1))%Q.
Proof.
  unfold format_f.
  set (n := round_half_even (Qabs q * (Zpos (pow10 prec) # 1))%Q).
  set (ds := repeat "0" (S prec - length (N_digits n)) ++ N_digits n).
  destruct (num_of_padded (S prec - length (N_digits n)) n) as [Hnum Hall].
  fold ds in Hnum, Hall.
  assert (Hlen : (S prec <= length ds)%nat).
  { unfold ds. rewrite length_app, repeat_length. lia. }
  exists (firstn (length ds - prec) ds), (skipn (length ds - prec) ds).
  destruct (forallb_firstn_skipn isdigit (length ds - prec) ds Hall) as [H1 H2].
  split; [reflexivity|]. split.
  { destruct (firstn (length ds - prec) ds) eqn:E; [|exact H1].
    apply (f_equal (@length ascii)) in E. rewrite length_firstn in E.
    simpl in E. lia. }
  split; [exact H2|]. split.
  { rewrite length_skipn. lia. }
  now rewrite firstn_skipn.
Qed.

Lemma scaled_close (n : Z) (a : Q) (d : positive) :
  (Qabs (inject_Z n - a * (Zpos d # 1)) <= 1 # 2)%Q ->
  (Qabs ((n # d) - a) <= 1 # (2 * d))%Q.
Proof.
  intros H. apply Qabs_Qle_condition in H. apply Qabs_Qle_condition.
  destruct a as [p b].
  unfold Qle, Qminus, Qplus, Qopp, Qmult, inject_Z in *. cbn [Qnum Qden] in *.
  rewrite ?Pos2Z.inj_mul in *. split; nia.
Qed.

Lemma py_float_format (prec : nat) (q : Q) (ws : str) :
  (1 <= prec)%nat -> forallb isspace ws = true ->
  exists v, py_float (format_f prec q ++ ws) = Ok v /\
            (Qabs (v - q) <= 1 # (2 * pow10 prec))%Q.
Proof.
  intros Hp Hws. rewrite py_float_blank_r by exact Hws.
  destruct (format_f_shape prec q) as (ip & fp & -> & Hip & Hfp & Hlen & Hnum).
  assert (Hfp' : digits fp = true).
  { destruct fp; [simpl in Hlen; lia | exact Hfp]. }
  assert (Hclose : (Qabs (decimal ip fp - Qabs q) <= 1 # (2 * pow10 prec))%Q).
  { unfold decimal. rewrite Hnum, Hlen. apply scaled_close.
    apply round_half_even_close.
    apply Qmult_le_0_compat; [apply Qabs_nonneg | discriminate]. }
  destruct (Qltb_spec q 0) as [Hneg|Hpos].
  - cbn [app]. rewrite py_float_minus_decimal by assumption.
    eexists. split; [reflexivity|].
    rewrite (Qabs_neg q) in Hclose by lra.
    rewrite <- Qabs_opp.
    setoid_replace (- (- decimal ip fp - q))%Q with (decimal ip fp - - q)%Q by ring.
    exact Hclose.
  - cbn [app]. rewrite py_float_decimal by assumption.
    eexists. split; [reflexivity|].
    now rewrite (Qabs_pos q) in Hclose by exact Hpos.
Qed.

Lemma py_int_format (z : Z) (ws : str) :
  forallb isspace ws = true -> py_int (format_d z ++ ws) = Ok z.
Proof.
  intros Hws. unfold format_d.
  pose proof (N_digits_digits (Z.abs_N z)) as Hd.
  destruct (Z.ltb_spec z 0) as [Hneg|Hpos].
  - unfold py_int. rewrite strip_app_blank_r by exact Hws.
    replace (strip (["-"] ++ N_digits (Z.abs_N z)))
      with ("-" :: N_digits (Z.abs_N z)).
    + cbn [split_sign]. rewrite digits_val_num_of by exact Hd.
      rewrite num_of_N_digits. f_equal. lia.
    + symmetry. unfold strip. cbn [app]. rewrite lstrip_first by reflexivity.
      apply rstrip_last_ok.
      change ("-" :: N_digits (Z.abs_N z)) with (["-"] ++ N_digits (Z.abs_N z)).
      apply last_ok_app, last_ok_digits; [exact space_digit_free | exact Hd].
  - cbn [app]. rewrite py_int_digits by assumption.
    rewrite num_of_N_digits. f_equal. lia.
Qed.

(** *** The characters of a formatted number *)
Lemma format_f_lacks (c : ascii) (prec : nat) (q : Q) :
  isdigit c = false -> Ascii.eqb "-" c = false -> Ascii.eqb "." c = false ->
  lacks c (format_f prec q) = true.
Proof.
  intros Hd Hm Hp.
  destruct (format_f_shape prec q) as (ip & fp & -> & Hip & Hfp & _ & _).
  apply digits_inv in Hip as [_ Hip].
  rewrite !lacks_app.
  rewrite (digits_lacks c ip Hd Hip), (digits_lacks c fp Hd Hfp).
  unfold lacks, lit.
  destruct (Qltb q 0); cbn [forallb list_ascii_of_string];
    rewrite ?Hm, Hp; reflexivity.
Qed.

Lemma format_d_lacks (c : ascii) (z : Z) :
  isdigit c = false -> Ascii.eqb "-" c = false ->
  lacks c (format_d z) = true.
Proof.
  intros Hd Hm. unfold format_d.
  pose proof (N_digits_digits (Z.abs_N z)) as H.
  apply digits_inv in H as [_ H].
  rewrite lacks_app, (digits_lacks c _ Hd H).
  unfold lacks.
  destruct (z <? 0); cbn [forallb]; rewrite ?Hm; reflexivity.
Qed.

End NumFacts.

(** * Saving and loading again *)

Module FileFacts.
Import StrFacts DigitFacts NumFacts.
Import BTSChannels.

Lemma getitem5 {A : Type} (a b c d e : A) :
  py_getitem [a; b; c; d; e] 0 = Ok a /\
  py_getitem [a; b; c; d; e] 1 = Ok b /\
  py_getitem [a; b; c; d; e] 2 = Ok c /\
  py_getitem [a; b; c; d; e] 3 = Ok d /\
  py_getitem [a; b; c; d; e] 4 = Ok e.
Proof. repeat split. Qed.

Lemma parse_format_row (c : chrec) :
  lacks "," (band c) = true ->
  exists c', parse_row (format_row c) = Ok c' /\ row_close c c'.
Proof.
  intros Hb. unfold parse_row, format_row.
  rewrite split_cut by exact Hb.
  rewrite split_cut by (apply format_d_lacks; reflexivity).
  rewrite split_cut by (apply format_f_lacks; reflexivity).
  rewrite split_cut by (apply format_f_lacks; reflexivity).
  rewrite split_lacks.
  2:{ rewrite lacks_app, format_f_lacks by reflexivity. reflexivity. }
  match goal with
  | |- context [py_getitem [?a; ?b; ?c; ?d; ?e] _] =>
      destruct (getitem5 a b c d e) as (-> & -> & -> & -> & ->)
  end.
  cbn [bind].
  rewrite <- (app_nil_r (format_d (ch c))), py_int_format by reflexivity.
  cbn [bind].
  destruct (py_float_format 6 (freq c) [] ltac:(lia) eq_refl) as (v1 & E1 & H1).
  rewrite app_nil_r in E1. rewrite E1. cbn [bind].
  destruct (py_float_format 6 (freq_err c) [] ltac:(lia) eq_refl) as (v2 & E2 & H2).
  rewrite app_nil_r in E2. rewrite E2. cbn [bind].
  destruct (py_float_format 2 (pwr c) [LF] ltac:(lia) eq_refl) as (v3 & E3 & H3).
  rewrite E3. cbn [bind].
  eexists. split; [reflexivity|].
  repeat split; assumption.
Qed.

Lemma format_row_body (c : chrec) : format_row c = row_body c ++ [LF].
Proof.
  unfold format_row, row_body.
  repeat (rewrite <- app_assoc; cbn [app]). reflexivity.
Qed.

Lemma row_body_lacks (x : ascii) (c : chrec) :
  isdigit x = false -> Ascii.eqb "-" x = false -> Ascii.eqb "." x = false ->
  Ascii.eqb "," x = false ->
  lacks x (band c) = true -> lacks x (row_body c) = true.
Proof.
  intros Hd Hm Hp Hc Hb. unfold row_body.
  assert (Hcons : forall t, lacks x t = true -> lacks x ("," :: t) = true).
  { intros t Ht. unfold lacks in *. cbn [forallb]. now rewrite Hc, Ht. }
  rewrite lacks_app, Hb. apply Hcons.
  rewrite lacks_app, format_d_lacks by assumption. apply Hcons.
  rewrite lacks_app, format_f_lacks by assumption. apply Hcons.
  rewrite lacks_app, format_f_lacks by assumption. apply Hcons.
  now apply format_f_lacks.
Qed.

Lemma band_ok_inv (c : chrec) :
  band_ok c = true ->
  lacks "," (band c) = true /\ lacks LF (band c) = true /\
  lacks CR (band c) = true.
Proof.
  unfold band_ok. rewrite !andb_true_iff. tauto.
Qed.


Lemma rows_lack_CR (l : list chrec) :
  Forall (fun c => band_ok c = true) l ->
  lacks CR (concat (map format_row l)) = true.
Proof.
  induction 1 as [|c t Hc _ IH]; [reflexivity|].
  cbn [map concat]. rewrite lacks_app, IH, format_row_body, lacks_app.
  apply band_ok_inv in Hc as (_ & _ & Hc).
  rewrite row_body_lacks by (reflexivity || assumption). reflexivity.
Qed.

Lemma parse_format_rows (l : list chrec) :
  Forall (fun c => band_ok c = true) l ->
  exists l', parse_rows (map format_row l) = Ok l' /\ Forall2 row_close l l'.
Proof.
  induction 1 as [|c t Hc _ (t' & E & Ht)]; [exists []; split; constructor|].
  apply band_ok_inv in Hc as (Hc & _ & _).
  destruct (parse_format_row c Hc) as (c' & Ec & Hcc).
  exists (c' :: t'). cbn [map parse_rows]. rewrite Ec, E. cbn [bind].
  split; [reflexivity | now constructor].
Qed.

End FileFacts.

Section RoundTrip.
Import BTSChannels.




End RoundTrip.

(** * Further properties: the selector *)

Section SelectorExtras.
Import BTSChannels.






Lemma Sorted_firstn {A : Type} (R : A -> A -> Prop) (k : nat) (l : list A) :
  Sorted R l -> Sorted R (firstn k l).
Proof.
  intros H. revert k. induction H as [|x l Hl IH Hx]; intros [|k]; simpl;
    try constructor.
  - apply IH.
  - destruct Hx as [|y l' Hxy]; destruct k; simpl; constructor. exact Hxy.
Qed.

(** X3: [getBest] returns records of the surviving list, no record
    followed by a stronger one; their number is the smaller of [nchannels]
    and the number of survivors, and for a negative [nchannels] the number
    of survivors less [-nchannels] (none below that). *)
Theorem getBest_sorted_and_short :
  forall (l : list chrec) (n : Z) (thr : Q),
    exists survivors r,
      while (S (length l)) thr l = Ok survivors /\
      getBest l n thr = Ok r /\
      Sorted (fun a b => (pwr b <= pwr a)%Q) r /\
      length r = (if n <? 0 then (length survivors - Z.to_nat (- n))%nat
                  else Nat.min (Z.to_nat n) (length survivors)) /\
      (forall x, In x r -> In x survivors).
Proof.
  intros l n thr.
  destruct (LoopFacts.while_removals thr (S (length l)) l)
    as (sv & k & Hw & _ & _ & _); [lia|].
  exists sv. eexists. split; [exact Hw|].
  unfold getBest, getBest_fuel. rewrite Hw. cbn [bind].
  split; [reflexivity|].
  pose proof (Permutation_length (py_sort_perm (fun c => (- pwr c)%Q) sv)) as Hlen.
  split; [|split].
  - unfold py_slice_to. rewrite RefFacts.py_sort_desc.
    destruct (n <? 0); apply Sorted_firstn, RefFacts.sort_desc_sorted.
  - unfold py_slice_to.
    destruct (Z.ltb_spec n 0); rewrite length_firstn, Hlen; lia.
  - intros x Hx. apply slice_to_In in Hx.
    exact (Permutation_in _ (py_sort_perm (fun c => (- pwr c)%Q) sv) Hx).
Qed.
End SelectorExtras.

(** * Further properties: the aggregator *)

Module AggMore.
Import CalTool.


Lemma loop_raises (m : nat -> str -> Z -> result Q) (e : exn) :
  forall (cs : list chrec) (j k : nat) (c : chrec) (vals ppms : list Q)
         (ppm pwr_ : Q),
    nth_error cs j = Some c ->
    measured m k (firstn j cs) vals ->
    m (k + j)%nat (band c) (ch c) = Raise e ->
    measure_loop m k cs ppms ppm pwr_ = Raise e.
Proof.
  induction cs as [|x t IH]; intros j k c vals ppms ppm pwr_ Hn Hm He.
  - destruct j; discriminate.
  - destruct j as [|j].
    + injection Hn as ->. rewrite Nat.add_0_r in He.
      cbn [measure_loop]. now rewrite He.
    + cbn [firstn] in Hm. destruct vals as [|v vs]; [contradiction|].
      destruct Hm as [Hx Hm]. cbn [measure_loop]. rewrite Hx. cbn [bind].
      apply (IH j (S k) c vs); [exact Hn | exact Hm|].
      now rewrite Nat.add_succ_comm.
Qed.




End AggMore.

Section AggregatorExtras.
Import CalTool AggMore.

(** X4: when the measurement of the channel at position [j] raises and
    those before it succeeded, [measureMeanPPM] raises that exception,
    whatever the later channels and their measurements are. *)
Theorem failed_measurement_aborts :
  forall (m : nat -> str -> Z -> result Q) (cs : list chrec) (j : nat)
         (c : chrec) (vals : list Q) (e : exn),
    nth_error cs j = Some c ->
    measured m 0 (firstn j cs) vals ->
    m j (band c) (ch c) = Raise e ->
    measureMeanPPM m cs = Raise e.
Proof.
  intros m cs j c vals e Hn Hm He. unfold measureMeanPPM.
  now rewrite (loop_raises m e cs j 0 c vals [] 0%Q 0%Q Hn Hm He).
Qed.

Lemma failed_measurement_aborts_witness :
  measureMeanPPM
    (fun k _ _ => if (k =? 0)%nat then Ok 1%Q else Raise ValueError)
    [agg1; agg2; silent] = Raise ValueError.
Proof.
  apply (failed_measurement_aborts _ [agg1; agg2; silent] 1 agg2 [1%Q]);
    [reflexivity | simpl; auto | reflexivity].
Defined.





End AggregatorExtras.

(** * Further properties: scanning *)

Module ScanMore.
Import CalTool StrFacts.

Lemma py_int_raises (x : str) (e : exn) : py_int x = Raise e -> e = ValueError.
Proof.
  unfold py_int. destruct (split_sign (strip x)) as [neg ds].
  destruct (digits_val ds); [discriminate | now intros [= <-]].
Qed.

Lemma py_float_raises (x : str) (e : exn) : py_float x = Raise e -> e = ValueError.
Proof.
  unfold py_float. destruct (split_sign (strip x)) as [neg body].
  destruct (split "." body) as [|ip [|fp [|]]]; try (now intros [= <-]).
  - destruct (digits_val ip); [discriminate | now intros [= <-]].
  - destruct (digits_val (ip ++ fp)); [discriminate | now intros [= <-]].
Qed.

Lemma parse_line_raises (band line : str) (e : exn) :
  parse_line band line = Raise e -> e = ValueError.
Proof.
  unfold parse_line, bind. intros H.
  repeat match type of H with
         | context [match ?x with _ => _ end] =>
             let E := fresh "E" in destruct x eqn:E
         end;
    try discriminate; try (now injection H as <-);
    repeat match goal with
           | E : py_int _ = Raise _ |- _ => apply py_int_raises in E
           | E : py_float _ = Raise _ |- _ => apply py_float_raises in E
           end;
    try congruence.
  match goal with
  | E : context [find "+" _] |- _ =>
      repeat match type of E with
             | context [if ?x then _ else _] => destruct x
             | context [match ?x with _ => _ end] => destruct x
             end
  end; congruence.
Qed.

Lemma parse_line_band (bnd line : str) (c : chrec) :
  parse_line bnd line = Ok c -> band c = bnd.
Proof.
  unfold parse_line, bind. intros H.
  repeat match type of H with
         | context [match ?x with _ => _ end] =>
             let E := fresh "E" in destruct x eqn:E
         end;
    try discriminate; now injection H as <-.
Qed.

Lemma split_length (sep : ascii) (x : str) :
  length (split sep x) = S (count_char sep x).
Proof.
  unfold count_char. induction x as [|c t IH]; [reflexivity|].
  cbn [split filter]. rewrite (Ascii.eqb_sym sep c).
  destruct (Ascii.eqb c sep); cbn [length]; [now rewrite IH|].
  destruct (split sep t) eqn:E; [discriminate IH|]. exact IH.
Qed.

Lemma parse_line_colons (band line : str) (c : chrec) :
  parse_line band line = Ok c -> count_char ":" line = 2%nat.
Proof.
  intros H. pose proof (split_length ":" line) as Hl.
  unfold parse_line in H.
  destruct (split ":" line) as [|a [|b [|d [|]]]]; try discriminate.
  simpl in Hl. lia.
Qed.

Lemma parse_lines_ok (bnd : str) (lines : list str) :
  forall acc l : list chrec,
    parse_lines bnd lines acc = Ok l ->
    exists new,
      l = acc ++ new /\
      Forall (fun c => band c = bnd) new /\
      length new = length (filter (fun line => negb (blank line)) lines).
Proof.
  induction lines as [|line rest IH]; intros acc l H.
  - injection H as <-. exists []. rewrite app_nil_r. repeat split. constructor.
  - cbn [parse_lines filter] in *. unfold blank.
    destruct (strip line) as [|x t] eqn:El.
    + cbn [negb]. apply IH, H.
    + destruct (parse_line bnd (x :: t)) as [c|e] eqn:Ep; [|discriminate].
      cbn [bind] in H. destruct (IH _ _ H) as (new & -> & Hb & Hlen).
      exists (c :: new). rewrite <- app_assoc. split; [reflexivity|].
      split; [constructor; [now apply parse_line_band in Ep | exact Hb]|].
      cbn [negb length]. now rewrite Hlen.
Qed.

Lemma parse_lines_bad (band : str) (lines : list str) (line : str) (e : exn) :
  In line lines -> strip line <> [] ->
  parse_line band (strip line) = Raise e ->
  forall acc, parse_lines band lines acc = Raise ValueError.
Proof.
  intros Hin Hne Hp.
  induction lines as [|l rest IH]; [destruct Hin|]. intros acc.
  cbn [parse_lines].
  destruct Hin as [->|Hin].
  - destruct (strip line) as [|x t] eqn:El; [congruence|].
    rewrite Hp. cbn [bind]. f_equal. now apply parse_line_raises in Hp.
  - destruct (strip l) as [|x t]; [now apply IH|].
    destruct (parse_line band (x :: t)) as [c|e'] eqn:Ep; cbn [bind].
    + now apply IH.
    + f_equal. now apply parse_line_raises in Ep.
Qed.
End ScanMore.

Section ScanExtras.
Import CalTool ScanMore.

(** X7: a list [listChannels] returns has one record for each line after
    the first that is not blank, and every record carries the band
    [listChannels] was called with. *)
Theorem scan_records :
  forall (output : result str) (bnd : str) (l : list chrec),
    listChannels output bnd = Ok l ->
    exists raw,
      output = Ok raw /\
      Forall (fun c => band c = bnd) l /\
      length l =
      length (filter (fun line => negb (blank line))
                (tl (split (ascii_of_N 10) raw))).
Proof.
  intros [raw|e] bnd l H; [|discriminate].
  exists raw. split; [reflexivity|].
  unfold listChannels, decode_ascii in H. cbn [bind] in H.
  destruct (forallb _ raw); [|discriminate]. cbn [bind] in H.
  destruct (parse_lines_ok bnd _ [] l H) as (new & -> & Hb & Hlen).
  now split.
Qed.

Lemma scan_records_witness :
  exists raw,
    Ok scan_output = Ok raw /\
    Forall (fun c => band c = lit "GSM900")
      [mkCh (lit "GSM900") 14 (9378 # 10) (- (1234 # 1000)) (2345678 # 100);
       mkCh (lit "GSM900") 5 (93520 # 100) (2 # 100) (1250 # 100)] /\
    2%nat = length (filter (fun line => negb (blank line))
                      (tl (split (ascii_of_N 10) raw))).
Proof.
  apply (scan_records (Ok scan_output) (lit "GSM900")).
  vm_compute. reflexivity.
Defined.

(** X8: [listChannels] raises what the run of the tool raised,
    [UnicodeDecodeError] when the output is not ASCII, and otherwise
    nothing but [ValueError]. *)
Theorem scan_raises_only :
  forall (output : result str) (band : str) (e : exn),
    listChannels output band = Raise e ->
    output = Raise e \/
    (exists raw, output = Ok raw /\ is_ascii raw = false /\
                 e = UnicodeDecodeError) \/
    (exists raw, output = Ok raw /\ is_ascii raw = true /\ e = ValueError).
Proof.
  intros [raw|e'] band e H.
  - right. unfold listChannels, decode_ascii in H. cbn [bind] in H.
    fold (is_ascii raw) in H.
    destruct (is_ascii raw) eqn:Ea; cbn [bind] in H.
    + right. exists raw. split; [reflexivity|]. split; [exact Ea|].
      destruct (parse_lines_raise band _ _ _ H) as (line & _ & _ & Hp).
      now apply parse_line_raises in Hp.
    + left. exists raw. split; [reflexivity|]. split; [exact Ea|].
      now injection H.
  - left. cbn in H. now injection H as <-.
Qed.

Lemma scan_raises_only_witness :
  Ok spec_output = Raise ValueError \/
  (exists raw, Ok spec_output = Ok raw /\ is_ascii raw = false /\
               ValueError = UnicodeDecodeError) \/
  (exists raw, Ok spec_output = Ok raw /\ is_ascii raw = true /\
               ValueError = ValueError).
Proof.
  apply (scan_raises_only (Ok spec_output) (lit "GSM900") ValueError).
  vm_compute. reflexivity.
Defined.
End ScanExtras.

Section ScanExtras2.
Import CalTool ScanMore.

(** X9: one line after the first that is not blank and does not hold
    exactly two colons makes [listChannels] raise [ValueError], whatever
    the other lines are. *)
Theorem scan_line_needs_two_colons :
  forall (raw band line : str),
    is_ascii raw = true ->
    In line (tl (split (ascii_of_N 10) raw)) ->
    blank line = false ->
    count_char ":" (strip line) <> 2%nat ->
    listChannels (Ok raw) band = Raise ValueError.
Proof.
  intros raw band line Ha Hin Hb Hc.
  unfold listChannels, decode_ascii. cbn [bind].
  fold (is_ascii raw). rewrite Ha. cbn [bind].
  destruct (parse_line band (strip line)) as [c|e] eqn:Ep.
  - apply parse_line_colons in Ep. contradiction.
  - apply (parse_lines_bad band _ line e Hin); [|exact Ep].
    unfold blank in Hb. destruct (strip line); [discriminate | discriminate].
Qed.

Lemma scan_line_needs_two_colons_witness :
  listChannels (Ok header_output) (lit "GSM900") = Raise ValueError.
Proof.
  apply (scan_line_needs_two_colons header_output (lit "GSM900") (lit "GSM-900:")).
  - reflexivity.
  - vm_compute. tauto.
  - reflexivity.
  - vm_compute. discriminate.
Defined.

(** X10: an ASCII output without a line feed, the empty output included,
    gives the empty list. *)
Theorem scan_of_one_line_is_empty :
  forall (raw band : str),
    is_ascii raw = true -> lacks (ascii_of_N 10) raw = true ->
    listChannels (Ok raw) band = Ok [].
Proof.
  intros raw band Ha Hl. unfold listChannels, decode_ascii. cbn [bind].
  fold (is_ascii raw). rewrite Ha. cbn [bind].
  now rewrite StrFacts.split_lacks.
Qed.

Lemma scan_of_one_line_is_empty_witness :
  listChannels (Ok banner) (lit "GSM900") = Ok [].
Proof. apply scan_of_one_line_is_empty; reflexivity. Defined.
End ScanExtras2.

(** * Further properties: channel files *)

Module FileMore.
Import BTSChannels StrFacts DigitFacts NumFacts FileFacts.

Lemma parse_rows_app (a b : list str) (la : list chrec) :
  parse_rows a = Ok la ->
  parse_rows (a ++ b) = (lb <- parse_rows b ;; Ok (la ++ lb))%py.
Proof.
  revert la. induction a as [|x a IH]; intros la H.
  - injection H as <-. cbn [app parse_rows].
    destruct (parse_rows b); reflexivity.
  - cbn [app parse_rows] in *.
    destruct (parse_row x) as [c|e]; [|discriminate]. cbn [bind] in *.
    destruct (parse_rows a) as [l|e]; [|discriminate]. cbn [bind] in H.
    injection H as <-. rewrite (IH l eq_refl).
    destruct (parse_rows b); reflexivity.
Qed.

Lemma parse_row_no_comma (row : str) :
  lacks "," row = true -> parse_row row = Raise IndexError.
Proof.
  intros H. unfold parse_row. now rewrite split_lacks.
Qed.

Lemma saved_lines (l : list chrec) (tail : str) :
  Forall (fun c => band_ok c = true) l ->
  file_lines (save l ++ tail) =
  (HDR ++ [LF]) :: map format_row l ++ file_lines tail.
Proof.
  intros Hl. unfold save. rewrite <- !app_assoc. cbn [app].
  rewrite file_lines_cut by reflexivity. f_equal.
  induction Hl as [|c t Hc _ IH]; [reflexivity|].
  cbn [map concat]. rewrite format_row_body at 1.
  rewrite <- !app_assoc. cbn [app].
  rewrite file_lines_cut.
  - now rewrite IH, format_row_body.
  - apply band_ok_inv in Hc as (_ & Hc & _).
    apply row_body_lacks; (reflexivity || assumption).
Qed.

Lemma load_as_read (text : str) :
  lacks CR text = true ->
  load text =
  (if negb (str_eqb (strip (hd [] (file_lines text))) HDR) then Raise ValueError
   else parse_rows (tl (file_lines text))).
Proof. intros H. unfold load. now rewrite universal_newlines_id. Qed.

Lemma getitem5_more {A : Type} (a b c d e : A) (rest : list A) :
  py_getitem (a :: b :: c :: d :: e :: rest) 0 = Ok a /\
  py_getitem (a :: b :: c :: d :: e :: rest) 1 = Ok b /\
  py_getitem (a :: b :: c :: d :: e :: rest) 2 = Ok c /\
  py_getitem (a :: b :: c :: d :: e :: rest) 3 = Ok d /\
  py_getitem (a :: b :: c :: d :: e :: rest) 4 = Ok e.
Proof.
  split; [|split; [|split; [|split]]].
  - exact (getitem_nat (a :: b :: c :: d :: e :: rest) 0 a eq_refl).
  - exact (getitem_nat (a :: b :: c :: d :: e :: rest) 1 b eq_refl).
  - exact (getitem_nat (a :: b :: c :: d :: e :: rest) 2 c eq_refl).
  - exact (getitem_nat (a :: b :: c :: d :: e :: rest) 3 d eq_refl).
  - exact (getitem_nat (a :: b :: c :: d :: e :: rest) 4 e eq_refl).
Qed.

Lemma parse_row_fields (x : str) (a b c d e : str) (rest : list str) :
  split "," x = a :: b :: c :: d :: e :: rest ->
  parse_row x = row_of_fields a b c d e.
Proof.
  intros H. unfold parse_row, row_of_fields. rewrite H.
  destruct (getitem5_more a b c d e rest) as (-> & -> & -> & -> & ->).
  reflexivity.
Qed.

Lemma load_saved (l : list chrec) :
  Forall (fun c => band_ok c = true) l ->
  load (save l) = parse_rows (map format_row l).
Proof.
  intros Hl. rewrite load_as_read.
  2:{ unfold save. rewrite lacks_app, rows_lack_CR by exact Hl. reflexivity. }
  rewrite <- (app_nil_r (save l)), saved_lines by exact Hl.
  cbn [hd tl file_lines]. rewrite app_nil_r.
  rewrite strip_app_blank_r by reflexivity.
  now replace (str_eqb (strip HDR) HDR) with true by reflexivity.
Qed.

Lemma round_integer (q : Q) (z : Z) :
  0 <= z -> (q == inject_Z z)%Q -> round_half_even q = Z.to_N z.
Proof.
  destruct q as [n d]. unfold Qeq, inject_Z. cbn [Qnum Qden]. intros Hz H.
  rewrite Z.mul_1_r in H. subst n. unfold round_half_even. cbn [Qnum Qden].
  rewrite Z.div_mul, Z.mod_mul by lia.
  now destruct (Z.compare_spec (2 * 0) (Z.pos d)); try lia.
Qed.

Lemma py_float_format_exact (prec : nat) (q : Q) (ws : str) :
  (1 <= prec)%nat -> forallb isspace ws = true -> has_decimals prec q ->
  exists v, py_float (format_f prec q ++ ws) = Ok v /\ (v == q)%Q.
Proof.
  intros Hp Hws [z Hz]. rewrite py_float_blank_r by exact Hws.
  destruct (format_f_shape prec q) as (ip & fp & -> & Hip & Hfp & Hlen & Hnum).
  assert (Hfp' : digits fp = true).
  { destruct fp; [simpl in Hlen; lia | exact Hfp]. }
  assert (Habs : (Qabs q * (Z.pos (pow10 prec) # 1) == inject_Z (Z.abs z))%Q).
  { rewrite Hz. unfold Qabs, Qeq, Qmult, inject_Z. cbn [Qnum Qden]. lia. }
  assert (Hval : (decimal ip fp == Qabs q)%Q).
  { unfold decimal. rewrite Hnum, Hlen.
    rewrite (round_integer _ (Z.abs z) (Z.abs_nonneg z) Habs).
    rewrite Z2N.id by apply Z.abs_nonneg.
    rewrite Hz. unfold Qabs, Qeq. cbn [Qnum Qden]. reflexivity. }
  destruct (Qltb_spec q 0) as [Hneg|Hpos].
  - cbn [app]. rewrite py_float_minus_decimal by assumption.
    eexists. split; [reflexivity|].
    rewrite Hval, (Qabs_neg q) by lra. ring.
  - cbn [app]. rewrite py_float_decimal by assumption.
    eexists. split; [reflexivity|].
    now rewrite Hval, (Qabs_pos q) by exact Hpos.
Qed.

Lemma parse_format_row_exact (c : chrec) :
  lacks "," (band c) = true -> row_exact c ->
  exists c', parse_row (format_row c) = Ok c' /\ row_same c c'.
Proof.
  intros Hb (H1 & H2 & H3).
  rewrite (parse_row_fields _ (band c) (format_d (ch c)) (format_f 6 (freq c))
             (format_f 6 (freq_err c)) (format_f 2 (pwr c) ++ [LF]) []).
  2:{ unfold format_row.
      rewrite split_cut by exact Hb.
      rewrite split_cut by (apply format_d_lacks; reflexivity).
      rewrite split_cut by (apply format_f_lacks; reflexivity).
      rewrite split_cut by (apply format_f_lacks; reflexivity).
      rewrite split_lacks; [reflexivity|].
      rewrite lacks_app, format_f_lacks by reflexivity. reflexivity. }
  unfold row_of_fields.
  rewrite <- (app_nil_r (format_d (ch c))), py_int_format by reflexivity.
  cbn [bind].
  destruct (py_float_format_exact 6 (freq c) [] ltac:(lia) eq_refl H1)
    as (v1 & E1 & Hv1).
  rewrite app_nil_r in E1. rewrite E1. cbn [bind].
  destruct (py_float_format_exact 6 (freq_err c) [] ltac:(lia) eq_refl H2)
    as (v2 & E2 & Hv2).
  rewrite app_nil_r in E2. rewrite E2. cbn [bind].
  destruct (py_float_format_exact 2 (pwr c) [LF] ltac:(lia) eq_refl H3)
    as (v3 & E3 & Hv3).
  rewrite E3. cbn [bind].
  eexists. split; [reflexivity|]. repeat split; assumption.
Qed.


End FileMore.

Section LoadExtras.
Import BTSChannels StrFacts DigitFacts NumFacts FileFacts FileMore.

(** X11: a line without a comma (an empty line too) after the rows of a
    saved list makes [load] raise [IndexError]. *)
Theorem line_without_comma_breaks_load :
  forall (l : list chrec) (row : str),
    Forall (fun c => band_ok c = true) l ->
    lacks "," row = true -> lacks LF row = true -> lacks CR row = true ->
    load (save l ++ row ++ [LF]) = Raise IndexError.
Proof.
  intros l row Hl Hc Hlf Hcr.
  rewrite load_as_read.
  2:{ unfold save. rewrite !lacks_app, rows_lack_CR, Hcr by exact Hl.
      reflexivity. }
  rewrite saved_lines by exact Hl. cbn [hd tl].
  rewrite strip_app_blank_r by reflexivity.
  replace (str_eqb (strip HDR) HDR) with true by reflexivity. cbn [negb].
  destruct (parse_format_rows l Hl) as (l' & E & _).
  rewrite (parse_rows_app _ _ l' E).
  replace (file_lines (row ++ [LF])) with [row ++ [LF]].
  - cbn [parse_rows]. rewrite parse_row_no_comma; [reflexivity|].
    now rewrite lacks_app, Hc.
  - rewrite <- (app_nil_r (row ++ [LF])) at 2. rewrite <- app_assoc.
    cbn [app]. now rewrite file_lines_cut.
Qed.

Lemma line_without_comma_breaks_load_witness :
  load (save [chan1; chan2] ++ [] ++ [LF]) = Raise IndexError.
Proof.
  apply (line_without_comma_breaks_load [chan1; chan2] []);
    [repeat constructor | reflexivity | reflexivity | reflexivity].
Defined.

(** X12: what follows the fifth field of a row is ignored when the row
    is read. *)
Theorem fields_after_the_fifth_are_ignored :
  forall (a b c d e extra : str),
    lacks "," a = true -> lacks "," b = true -> lacks "," c = true ->
    lacks "," d = true -> lacks "," e = true ->
    parse_row (a ++ "," :: b ++ "," :: c ++ "," :: d ++ "," :: e
                 ++ "," :: extra) =
    parse_row (a ++ "," :: b ++ "," :: c ++ "," :: d ++ "," :: e).
Proof.
  intros a b c d e extra Ha Hb Hc Hd He.
  rewrite (parse_row_fields _ a b c d e (split "," extra)).
  - rewrite (parse_row_fields _ a b c d e []); [reflexivity|].
    rewrite !split_cut by assumption. now rewrite split_lacks.
  - now rewrite !split_cut by assumption.
Qed.

Lemma fields_after_the_fifth_are_ignored_witness :
  parse_row (lit "GSM900,1,900.0,0.1,50,rest,of,the,line") =
  parse_row (lit "GSM900,1,900.0,0.1,50").
Proof.
  apply (fields_after_the_fifth_are_ignored (lit "GSM900") (lit "1")
           (lit "900.0") (lit "0.1") (lit "50") (lit "rest,of,the,line"));
    reflexivity.
Defined.

(** X13: a list whose frequencies and deviations have at most six
    decimals and whose powers have at most two is loaded back from its
    saved text with the same values. *)
Theorem short_decimals_reload_exactly :
  forall l : list chrec,
    Forall (fun c => band_ok c = true) l -> Forall row_exact l ->
    exists l', load (save l) = Ok l' /\ Forall2 row_same l l'.
Proof.
  intros l Hl Hx. rewrite load_saved by exact Hl.
  induction l as [|c t IH]; [exists []; split; constructor|].
  inversion Hl as [|? ? Hc Ht]; inversion Hx as [|? ? Hxc Hxt]; subst.
  destruct (IH Ht Hxt) as (t' & E & Hsame).
  apply band_ok_inv in Hc as (Hc & _ & _).
  destruct (parse_format_row_exact c Hc Hxc) as (c' & Ec & Hcc).
  exists (c' :: t'). cbn [map parse_rows]. rewrite Ec, E. cbn [bind].
  split; [reflexivity | now constructor].
Qed.

Lemma short_decimals_reload_exactly_witness :
  exists l', load (save [chan1; chan2; chan3]) = Ok l' /\
             Forall2 row_same [chan1; chan2; chan3] l'.
Proof.
  apply (short_decimals_reload_exactly [chan1; chan2; chan3]).
  - repeat constructor.
  - constructor; [|constructor; [|constructor; [|constructor]]].
    + split; [exists 900000000 | split; [exists 100000 | exists 5000]];
        reflexivity.
    + split; [exists 900200000 | split; [exists 500000 | exists 8000]];
        reflexivity.
    + split; [exists 900400000 | split; [exists 5000000 | exists 9000]];
        reflexivity.
Defined.


End LoadExtras.

(** * Further properties: one measurement *)

Module ToolFacts.
Import Tool StrFacts DigitFacts.

Lemma prefix_self (s x : str) : prefix s (s ++ x) = true.
Proof.
  induction s as [|c s IH]; [reflexivity|].
  cbn [app prefix]. now rewrite Ascii.eqb_refl, IH.
Qed.

Lemma prefix_app_short (s : str) : forall x y : str,
  (length s <= length x)%nat -> prefix s (x ++ y) = prefix s x.
Proof.
  induction s as [|c s IH]; intros x y H; [reflexivity|].
  destruct x as [|d x]; [simpl in H; lia|].
  cbn [app prefix]. rewrite IH by (simpl in H; lia). reflexivity.
Qed.

Lemma split_str_skip (sep s : str) (x : str) :
  split_str_from sep (length s) (s ++ x) = split_str_from sep 0 x.
Proof. induction s as [|c s IH]; [reflexivity | exact IH]. Qed.

Lemma split_str_nonempty (sep : str) (x : str) : forall k,
  split_str_from sep k x <> [].
Proof.
  induction x as [|c t IH]; intros k; cbn [split_str_from]; [discriminate|].
  destruct k; [|apply IH].
  destruct (prefix sep (c :: t)); [discriminate|].
  destruct (split_str_from sep 0 t); discriminate.
Qed.

Lemma split_str_absent (sep x : str) :
  occurs sep x = false -> split_str sep x = [x].
Proof.
  unfold split_str. induction x as [|c t IH]; intros H; [reflexivity|].
  cbn [occurs] in H. apply orb_false_iff in H as [Hp Ho].
  cbn [split_str_from]. rewrite Hp, IH by exact Ho. reflexivity.
Qed.

Lemma split_str_at (c : ascii) (s post : str) :
  split_str (c :: s) ((c :: s) ++ post) = [] :: split_str (c :: s) post.
Proof.
  unfold split_str. cbn [app split_str_from].
  change (prefix (c :: s) (c :: s ++ post)) with (prefix (c :: s) ((c :: s) ++ post)).
  rewrite prefix_self.
  replace (length (c :: s) - 1)%nat with (length s) by (simpl; lia).
  now rewrite split_str_skip.
Qed.

Lemma prefix_not_before (sep x y : str) :
  sep <> [] -> x <> [] ->
  prefix sep (x ++ removelast sep) = false ->
  prefix sep (x ++ sep ++ y) = false.
Proof.
  intros Hne Hx Hp.
  pose proof (app_removelast_last "a" Hne) as E.
  assert (Hlen : length sep = S (length (removelast sep))).
  { rewrite E at 1. rewrite length_app. simpl. lia. }
  assert (E' : x ++ sep ++ y =
               (x ++ removelast sep) ++ [last sep "a"] ++ y).
  { rewrite E at 1. now rewrite <- !app_assoc. }
  rewrite E', prefix_app_short; [exact Hp|].
  rewrite length_app. destruct x; [congruence | simpl; lia].
Qed.

Lemma split_str_once (sep pre post : str) :
  sep <> [] ->
  occurs sep (pre ++ removelast sep) = false ->
  split_str sep (pre ++ sep ++ post) = pre :: split_str sep post.
Proof.
  intros Hne.
  induction pre as [|d pre IH]; intros H.
  - destruct sep as [|c s]; [congruence|]. apply split_str_at.
  - cbn [app occurs] in H. apply orb_false_iff in H as [Hp Ho].
    pose proof (prefix_not_before sep (d :: pre) post Hne ltac:(discriminate) Hp)
      as Hp'.
    unfold split_str in *. cbn [app split_str_from] in *.
    rewrite Hp', (IH Ho). reflexivity.
Qed.

(** *** Words *)

Lemma take_token_app (a b : str) :
  solid a = true -> forallb isspace (firstn 1 b) = true ->
  take_token (a ++ b) = a /\ drop_token (a ++ b) = b.
Proof.
  intros Ha Hb. induction a as [|c a IH].
  - cbn [app]. destruct b as [|d b]; [split; reflexivity|].
    cbn [firstn forallb] in Hb. apply andb_true_iff in Hb as [Hb _].
    cbn [take_token drop_token]. rewrite Hb. split; reflexivity.
  - simpl in Ha. apply andb_true_iff in Ha as [Hc Ha].
    apply negb_true_iff in Hc. cbn [app take_token drop_token]. rewrite Hc.
    destruct (IH Ha) as [-> ->]. split; reflexivity.
Qed.

Lemma rstrip_app_keep (p : ascii -> bool) (a b : str) :
  rstrip_with p b <> [] -> rstrip_with p (a ++ b) = a ++ rstrip_with p b.
Proof.
  intros H. induction a as [|c a IH]; [reflexivity|].
  cbn [app rstrip_with]. rewrite IH.
  destruct (a ++ rstrip_with p b) eqn:E; [|reflexivity].
  apply app_eq_nil in E as [_ E]. contradiction.
Qed.

Lemma rstrip_head (p : ascii -> bool) (c : ascii) (t : str) :
  p c = false -> exists t', rstrip_with p (c :: t) = c :: t'.
Proof.
  intros H. cbn [rstrip_with].
  destruct (rstrip_with p t); [rewrite H|]; eauto.
Qed.

Lemma digits_solid (ds : str) : forallb isdigit ds = true -> solid ds = true.
Proof. apply digits_forallb. reflexivity. Qed.

Lemma signed_solid (neg : bool) (ip fp : str) :
  digits ip = true -> digits fp = true -> solid (signed neg ip fp) = true.
Proof.
  intros Hi Hf. apply digits_inv in Hi as [_ Hi]. apply digits_inv in Hf as [_ Hf].
  assert (Happ : forall a b, solid (a ++ b) = solid a && solid b)
    by (intros; apply forallb_app).
  unfold signed. rewrite !Happ, (digits_solid ip Hi), (digits_solid fp Hf).
  now destruct neg.
Qed.

Lemma signed_head (neg : bool) (ip fp : str) :
  digits ip = true ->
  exists c t, signed neg ip fp = c :: t /\ isspace c = false.
Proof.
  intros Hi. unfold signed. destruct neg.
  - exists "-", (ip ++ lit "." ++ fp). split; reflexivity.
  - destruct ip as [|c t]; [discriminate|].
    simpl in Hi. apply andb_true_iff in Hi as [Hc _].
    exists c, (t ++ lit "." ++ fp). split; [reflexivity|].
    apply (digit_free_at isspace c space_digit_free Hc).
Qed.

Lemma py_float_signed (neg : bool) (ip fp : str) :
  digits ip = true -> digits fp = true ->
  py_float (strip (signed neg ip fp)) =
  Ok (if neg then - decimal ip fp else decimal ip fp)%Q.
Proof.
  intros Hi Hf.
  assert (Hs : strip (signed neg ip fp) = signed neg ip fp).
  { destruct (signed_head neg ip fp Hi) as (c & t & E & Hc).
    unfold strip. rewrite E, lstrip_first by exact Hc. rewrite <- E.
    apply rstrip_last_ok. unfold signed. repeat apply last_ok_app.
    apply last_ok_digits; [exact space_digit_free | exact Hf]. }
  rewrite Hs. unfold signed. destruct neg; cbn [app].
  - now apply py_float_minus_decimal.
  - now apply py_float_decimal.
Qed.

Lemma strip_solid (x : str) : solid x = true -> strip x = x.
Proof.
  intros H. unfold strip.
  assert (Hl : lstrip_with isspace x = x).
  { destruct x as [|c t]; [reflexivity|]. simpl in H.
    apply andb_true_iff in H as [Hc _]. apply negb_true_iff in Hc.
    now apply lstrip_first. }
  rewrite Hl. clear Hl.
  induction x as [|c t IH]; [reflexivity|].
  simpl in H. apply andb_true_iff in H as [Hc H]. apply negb_true_iff in Hc.
  cbn [rstrip_with]. rewrite (IH H). destruct t; [now rewrite Hc | reflexivity].
Qed.

Lemma split_ws1_one (tok : str) :
  solid tok = true -> length (split_ws1 tok) <> 2%nat.
Proof.
  intros H. unfold split_ws1.
  destruct tok as [|c t]; [discriminate|].
  assert (Hc : isspace c = false).
  { simpl in H. apply andb_true_iff in H as [Hc _]. now apply negb_true_iff. }
  rewrite lstrip_first by exact Hc.
  destruct (take_token_app (c :: t) [] H eq_refl) as [_ Hd].
  rewrite app_nil_r in Hd. rewrite Hd. discriminate.
Qed.

End ToolFacts.

Section MeasureExtras.
Import Tool ToolFacts StrFacts DigitFacts.

(** X15: on an ASCII output that holds the marker once, followed by
    blanks, a decimal number with or without a minus sign, blanks and at
    least one more character that is not a blank, [measurePPM] returns
    that number. *)
Theorem measurePPM_reads_the_number :
  forall (pre ws1 : str) (neg : bool) (ip fp ws2 : str) (c : ascii)
         (tail : str),
    is_ascii (ppm_output pre ws1 neg ip fp ws2 c tail) = true ->
    occurs marker (pre ++ removelast marker) = false ->
    occurs marker (ws1 ++ signed neg ip fp ++ ws2 ++ c :: tail) = false ->
    forallb isspace ws1 = true ->
    forallb isspace ws2 = true -> ws2 <> [] ->
    isspace c = false ->
    digits ip = true -> digits fp = true ->
    measurePPM (Ok (ppm_output pre ws1 neg ip fp ws2 c tail)) =
    Ok (if neg then - decimal ip fp else decimal ip fp)%Q.
Proof.
  intros pre ws1 neg ip fp ws2 c tail Ha Hpre Hpost Hw1 Hw2 Hne Hc Hi Hf.
  unfold measurePPM, CalTool.decode_ascii. cbn [bind].
  fold (is_ascii (ppm_output pre ws1 neg ip fp ws2 c tail)). rewrite Ha.
  cbn [bind]. unfold ppm_output.
  rewrite split_str_once by (discriminate || exact Hpre).
  rewrite split_str_absent by exact Hpost.
  rewrite strip_app_blank_l by exact Hw1.
  destruct (rstrip_head isspace c tail Hc) as (t' & Et).
  destruct (signed_head neg ip fp Hi) as (c0 & t0 & E0 & Hc0).
  assert (Hstrip : strip (signed neg ip fp ++ ws2 ++ c :: tail) =
                   signed neg ip fp ++ ws2 ++ c :: t').
  { unfold strip. rewrite E0. cbn [app]. rewrite lstrip_first by exact Hc0.
    change (c0 :: t0 ++ ws2 ++ c :: tail) with ((c0 :: t0) ++ ws2 ++ c :: tail).
    rewrite rstrip_app_keep; rewrite rstrip_app_keep; rewrite ?Et;
      try discriminate; try reflexivity.
    intros H. apply app_eq_nil in H as [_ H]. discriminate. }
  rewrite Hstrip. unfold split_ws1.
  rewrite E0 at 1. cbn [app]. rewrite lstrip_first by exact Hc0.
  change (c0 :: t0 ++ ws2 ++ c :: t') with ((c0 :: t0) ++ ws2 ++ c :: t').
  rewrite <- E0.
  destruct (take_token_app (signed neg ip fp) (ws2 ++ c :: t')) as [-> ->].
  { now apply signed_solid. }
  { destruct ws2 as [|d w]; [congruence|].
    cbn [app firstn forallb]. simpl in Hw2.
    apply andb_true_iff in Hw2 as [-> _]. reflexivity. }
  rewrite lstrip_app_all by exact Hw2. rewrite lstrip_first by exact Hc.
  now apply py_float_signed.
Qed.

Lemma measurePPM_reads_the_number_witness :
  measurePPM (Ok (ppm_output (lit "kal: Calculating clock frequency offset.
") (lit " ") true (lit "12") (lit "345") (lit " ") "p" (lit "pm
"))) = Ok (- decimal (lit "12") (lit "345"))%Q.
Proof.
  apply (measurePPM_reads_the_number _ (lit " ") true (lit "12") (lit "345")
           (lit " ") "p"); try reflexivity. discriminate.
Defined.

(** X16: [measurePPM] raises [ValueError] on an output without the
    marker, on an output with the marker twice, and on an output where
    nothing but blanks follows the word after the marker: a number at
    the very end of the output is not read. *)
Theorem measurePPM_rejects :
  (forall raw : str,
      is_ascii raw = true -> occurs marker raw = false ->
      measurePPM (Ok raw) = Raise ValueError) /\
  (forall pre mid post : str,
      is_ascii (pre ++ marker ++ mid ++ marker ++ post) = true ->
      occurs marker (pre ++ removelast marker) = false ->
      occurs marker (mid ++ removelast marker) = false ->
      measurePPM (Ok (pre ++ marker ++ mid ++ marker ++ post))
      = Raise ValueError) /\
  (forall pre ws1 tok ws2 : str,
      is_ascii (pre ++ marker ++ ws1 ++ tok ++ ws2) = true ->
      occurs marker (pre ++ removelast marker) = false ->
      occurs marker (ws1 ++ tok ++ ws2) = false ->
      forallb isspace ws1 = true -> forallb isspace ws2 = true ->
      forallb (fun c => negb (isspace c)) tok = true ->
      measurePPM (Ok (pre ++ marker ++ ws1 ++ tok ++ ws2))
      = Raise ValueError).
Proof.
  split; [|split].
  - intros raw Ha Ho. unfold measurePPM, CalTool.decode_ascii. cbn [bind].
    fold (is_ascii raw). rewrite Ha. cbn [bind].
    now rewrite split_str_absent.
  - intros pre mid post Ha Hp Hm.
    unfold measurePPM, CalTool.decode_ascii. cbn [bind].
    fold (is_ascii (pre ++ marker ++ mid ++ marker ++ post)). rewrite Ha.
    cbn [bind].
    rewrite split_str_once by (discriminate || exact Hp).
    rewrite split_str_once by (discriminate || exact Hm).
    destruct (split_str marker post) eqn:E; [|reflexivity].
    now apply split_str_nonempty in E.
  - intros pre ws1 tok ws2 Ha Hp Ho Hw1 Hw2 Ht.
    unfold measurePPM, CalTool.decode_ascii. cbn [bind].
    fold (is_ascii (pre ++ marker ++ ws1 ++ tok ++ ws2)). rewrite Ha.
    cbn [bind].
    rewrite split_str_once by (discriminate || exact Hp).
    rewrite split_str_absent by exact Ho.
    rewrite strip_app_blank_l by exact Hw1.
    rewrite strip_app_blank_r by exact Hw2.
    rewrite (strip_solid tok Ht).
    pose proof (split_ws1_one tok Ht) as H2.
    destruct (split_ws1 tok) as [|a [|b [|]]]; try reflexivity.
    simpl in H2. congruence.
Qed.

Lemma measurePPM_rejects_witness :
  measurePPM (Ok (lit "no measurement")) = Raise ValueError /\
  measurePPM (Ok ([] ++ marker ++ lit " 1.5 ppm " ++ marker ++ lit " 2.5 ppm"))
  = Raise ValueError /\
  measurePPM (Ok ([] ++ marker ++ lit " " ++ lit "12.345" ++ lit "
")) = Raise ValueError.
Proof.
  destruct measurePPM_rejects as (H1 & H2 & H3).
  split; [|split].
  - apply H1; reflexivity.
  - apply H2; reflexivity.
  - apply H3; reflexivity.
Defined.
End MeasureExtras.

(** * Further properties: the program *)

Module MainFacts.
Import Main.


Lemma isfile_read (fs : files) (path : str) :
  isfile fs path = true -> exists text, read fs path = Some text.
Proof. unfold isfile. destruct (read fs path); [eauto | discriminate]. Qed.

Lemma isfile_false (fs : files) (path : str) :
  isfile fs path = false <-> read fs path = None.
Proof. unfold isfile. destruct (read fs path); split; congruence. Qed.

Lemma plan_reads (a : args) (fs : files) (channellist : str) :
  plan a fs = (false, channellist) -> isfile fs channellist = true.
Proof.
  unfold plan.
  destruct (a_scan a) eqn:Es; cbn [negb andb].
  - discriminate.
  - destruct (isfile fs (a_channellist a)) eqn:E1; cbn [negb].
    + now intros [= <-].
    + destruct (isfile fs (a_channellist a ++ lit ".csv")) eqn:E2; cbn [negb].
      * now intros [= <-].
      * discriminate.
Qed.

Lemma plan_scans (a : args) (fs : files) (channellist : str) :
  plan a fs = (true, channellist) -> channellist = a_channellist a.
Proof.
  unfold plan.
  destruct (negb (a_scan a) && negb (isfile fs (a_channellist a))).
  - destruct (negb (isfile fs (a_channellist a ++ lit ".csv")));
      [now intros [= <-] | discriminate].
  - now intros [= _ <-].
Qed.

Lemma report_opens (run : Tool.tool) (k : nat) (n : Z) (l : list chrec) :
  report run k n l <> OpenFailed.
Proof.
  unfold report. destruct (BTSChannels.getBest l n (6 # 10)); [|discriminate].
  destruct (CalTool.measureMeanPPM _ a) as [[ppm err]|e]; discriminate.
Qed.

Lemma report_nothing (run : Tool.tool) (k : nat) (n : Z) (l : list chrec) :
  BTSChannels.getBest l n (6 # 10) = Ok [] ->
  report run k n l = Uncaught ZeroDivisionError.
Proof. intros H. unfold report. now rewrite H. Qed.

Lemma plan_must_scan (a : args) (fs : files) :
  must_scan a fs -> plan a fs = (true, a_channellist a).
Proof.
  unfold plan. intros [->|[-> ->]]; [reflexivity|].
  destruct (a_scan a); reflexivity.
Qed.

Lemma main_scan (run : Tool.tool) (a : args) (fs : files) (band : str)
    (l : list chrec) :
  must_scan a fs -> a_band a = Some band -> band <> [] ->
  CalTool.listChannels (run 0%nat (Tool.scan_argv band)) band = Ok l ->
  main run a fs =
  (report run 1 (a_nchannels a) l,
   write (a_channellist a) (BTSChannels.save l) fs).
Proof.
  intros Hs Hb Hne Hl. unfold main. rewrite (plan_must_scan a fs Hs), Hb.
  destruct band as [|c b]; [congruence|]. cbn [no_band].
  now rewrite Hl.
Qed.


Lemma getBest_zero (l : list chrec) (thr : Q) :
  BTSChannels.getBest l 0 thr = Ok [].
Proof.
  unfold BTSChannels.getBest, BTSChannels.getBest_fuel.
  destruct (LoopFacts.while_removals thr (S (length l)) l)
    as (r & k & -> & _); [lia|]. reflexivity.
Qed.

Lemma getBest_nil (n : Z) (thr : Q) : BTSChannels.getBest [] n thr = Ok [].
Proof.
  unfold BTSChannels.getBest, BTSChannels.getBest_fuel. cbn.
  unfold py_slice_to. destruct (n <? 0); now rewrite firstn_nil.
Qed.

End MainFacts.

Section MainExtras.
Import Main MainFacts.

(** X17: when a scan is due (asked for, or neither the list file nor its
    [.csv] twin is there) and no band is given, the program exits with
    status 1, without a run of the tool and without writing a file. *)
Theorem scan_without_band_exits :
  forall (run : Tool.tool) (a : args) (fs : files),
    a_scan a = true \/
    (isfile fs (a_channellist a) = false /\
     isfile fs (a_channellist a ++ lit ".csv") = false) ->
    no_band (a_band a) = true ->
    main run a fs = (Exited 1, fs).
Proof.
  intros run a fs H Hb. unfold main.
  now rewrite (plan_must_scan a fs H), Hb.
Qed.

Lemma scan_without_band_exits_witness :
  main scan_tool args_no_band [] = (Exited 1, []).
Proof.
  apply (scan_without_band_exits scan_tool args_no_band []);
    [right; split; reflexivity | reflexivity].
Defined.

(** X18: the program never opens a file that is not there, and it
    leaves the files as they are unless a scan succeeded, in which case
    the one file written is the channel list, holding the scanned list. *)
Theorem main_opens_and_writes_with_care :
  forall (run : Tool.tool) (a : args) (fs : files),
    fst (main run a fs) <> OpenFailed /\
    (snd (main run a fs) = fs \/
     exists band channels,
       a_band a = Some band /\
       CalTool.listChannels (run 0%nat (Tool.scan_argv band)) band
       = Ok channels /\
       snd (main run a fs)
       = write (a_channellist a) (BTSChannels.save channels) fs).
Proof.
  intros run a fs. unfold main.
  destruct (plan a fs) as [scan channellist] eqn:Ep.
  destruct scan.
  - apply plan_scans in Ep. subst channellist.
    destruct (no_band (a_band a)) eqn:Eb; [split; [discriminate | now left]|].
    destruct (a_band a) as [[|c b]|]; try discriminate.
    destruct (CalTool.listChannels _ (c :: b)) as [l|e] eqn:El;
      [|split; [discriminate | now left]].
    cbn [fst snd]. split; [apply report_opens|].
    right. exists (c :: b), l. auto.
  - apply plan_reads, isfile_read in Ep as [raw Er]. rewrite Er.
    destruct (BTSChannels.load raw); cbn [fst snd];
      split; try (now left); [apply report_opens | discriminate].
Qed.

(** X19: without [--scan] the program loads the channel list when that
    file is there, or else its [.csv] twin when that one is there, and
    measures on what it loaded; no file is written. *)
Theorem main_reads_list_or_twin :
  forall (run : Tool.tool) (a : args) (fs : files) (raw : str),
    a_scan a = false ->
    read fs (a_channellist a) = Some raw \/
    (read fs (a_channellist a) = None /\
     read fs (a_channellist a ++ lit ".csv") = Some raw) ->
    main run a fs =
    (match BTSChannels.load raw with
     | Raise e => Uncaught e
     | Ok channels => report run 0 (a_nchannels a) channels
     end, fs).
Proof.
  intros run a fs raw Hs H. unfold main, plan, isfile. rewrite Hs.
  cbn [negb andb].
  destruct H as [H|[H1 H2]].
  - rewrite H. cbn [negb]. rewrite H.
    destruct (BTSChannels.load raw); reflexivity.
  - rewrite H1. cbn [negb]. rewrite H2. cbn [negb]. rewrite H2.
    destruct (BTSChannels.load raw); reflexivity.
Qed.

Lemma main_reads_list_or_twin_witness :
  main scan_tool args_plain twin_only =
  (match BTSChannels.load (BTSChannels.save [chan1; chan2; chan3]) with
   | Raise e => Uncaught e
   | Ok channels => report scan_tool 0 3 channels
   end, twin_only).
Proof.
  apply (main_reads_list_or_twin scan_tool args_plain twin_only);
    [reflexivity | right; split; reflexivity].
Defined.



(** X21: asked for 0 channels, or given an empty list, the program ends
    on [ZeroDivisionError]; a scan that finds no channel still writes the
    list file, holding the header line only, before it ends so. *)
Theorem nothing_to_measure :
  (forall (run : Tool.tool) (k : nat) (channels : list chrec),
      report run k 0 channels = Uncaught ZeroDivisionError) /\
  (forall (run : Tool.tool) (k : nat) (n : Z),
      report run k n [] = Uncaught ZeroDivisionError) /\
  (forall (run : Tool.tool) (a : args) (fs : files) (band : str),
      a_scan a = true \/
      (isfile fs (a_channellist a) = false /\
       isfile fs (a_channellist a ++ lit ".csv") = false) ->
      a_band a = Some band -> band <> [] ->
      CalTool.listChannels (run 0%nat (Tool.scan_argv band)) band = Ok [] ->
      main run a fs =
      (Uncaught ZeroDivisionError,
       write (a_channellist a) (BTSChannels.HDR ++ [BTSChannels.LF]) fs)).
Proof.
  split; [|split].
  - intros run k channels. apply report_nothing, getBest_zero.
  - intros run k n. apply report_nothing, getBest_nil.
  - intros run a fs band Hs Hb Hne Hl.
    rewrite (main_scan run a fs band [] Hs Hb Hne Hl).
    now rewrite report_nothing by apply getBest_nil.
Qed.

Lemma nothing_to_measure_witness :
  main quiet_tool args_plain [] =
  (Uncaught ZeroDivisionError,
   write (lit "bts_channels.csv") (BTSChannels.HDR ++ [BTSChannels.LF]) []).
Proof.
  apply (proj2 (proj2 nothing_to_measure) quiet_tool args_plain []
           (lit "GSM900")).
  - right. split; reflexivity.
  - reflexivity.
  - discriminate.
  - reflexivity.
Defined.
End MainExtras.
